(** * Lab: the experiment lifecycle controller of sinvoker-engine

    A shallow embedding of [src/Lab.py] (class [Lab]: [experiment],
    [_generate_position], [_invoke_initial_population],
    [_start_initial_population]) and the properties of it that the
    specification states.

    Conventions of the embedding.
    - Python integers are [Z]; nanosecond clock readings are [Z].
    - The floating-point values of the run phase (elapsed seconds, the
      argument of [sleep]) are idealised as exact rationals [Q].
    - Everything the controller reads from outside itself is an oracle of
      the environment [Env]: the random source behind [randint], the
      successive readings of [universe.get_time()], the successive values
      of [threading.active_count()].
    - Effects are threaded through a state-and-exception monad [M].
    - Console output ([print], [tqdm] progress bars) is not modelled. *)

From Stdlib Require Import ZArith QArith Qminmax Lia String.
From stdpp Require Import base tactics option list sorting gmap strings.

Local Open Scope Z_scope.

(** ** Python exceptions and outcomes *)

Inductive exn : Type :=
| AssertionError
| RecursionError
| ValueError
| IndexError.

(** [Running] is the outcome of a computation whose shutdown [while] loop has
    not finished within the number of iterations the model was given. *)
Inductive outcome (A : Type) : Type :=
| Return (a : A)
| Raise (e : exn)
| Running.
Arguments Return {A} a.
Arguments Raise {A} e.
Arguments Running {A}.

(** ** The environment and the controller's state *)

Record Env : Type := mkEnv {
  entropy : nat -> Z;        (* raw value behind the k-th call of randint *)
  time_ns : nat -> Z;        (* result of the k-th call of universe.get_time() *)
  active_count : nat -> Z;   (* result of the k-th call of threading.active_count() *)
}.

Record State : Type := mkState {
  rand_calls : nat;          (* calls of randint so far *)
  clock_calls : nat;         (* calls of universe.get_time() so far *)
  count_calls : nat;         (* calls of threading.active_count() so far *)
  agent_count : nat;         (* Agent.count, the next agent id *)
  universes : nat;           (* Universe objects constructed so far *)
  slept : list Q;            (* arguments of sleep, oldest first *)
}.

Definition initial_state : State :=
  {| rand_calls := 0; clock_calls := 0; count_calls := 0; agent_count := 0;
     universes := 0; slept := [] |}.

Definition with_rand_calls (n : nat) (s : State) : State :=
  {| rand_calls := n; clock_calls := clock_calls s; count_calls := count_calls s;
     agent_count := agent_count s; universes := universes s; slept := slept s |}.

Definition with_clock_calls (n : nat) (s : State) : State :=
  {| rand_calls := rand_calls s; clock_calls := n; count_calls := count_calls s;
     agent_count := agent_count s; universes := universes s; slept := slept s |}.

Definition with_count_calls (n : nat) (s : State) : State :=
  {| rand_calls := rand_calls s; clock_calls := clock_calls s; count_calls := n;
     agent_count := agent_count s; universes := universes s; slept := slept s |}.

Definition with_agent_count (n : nat) (s : State) : State :=
  {| rand_calls := rand_calls s; clock_calls := clock_calls s;
     count_calls := count_calls s; agent_count := n; universes := universes s;
     slept := slept s |}.

Definition with_universes (n : nat) (s : State) : State :=
  {| rand_calls := rand_calls s; clock_calls := clock_calls s;
     count_calls := count_calls s; agent_count := agent_count s; universes := n;
     slept := slept s |}.

Definition with_slept (l : list Q) (s : State) : State :=
  {| rand_calls := rand_calls s; clock_calls := clock_calls s;
     count_calls := count_calls s; agent_count := agent_count s;
     universes := universes s; slept := l |}.

Definition M (A : Type) : Type := State -> outcome A * State.

Definition ret {A} (a : A) : M A := fun s => (Return a, s).

Definition raise {A} (e : exn) : M A := fun s => (Raise e, s).

Definition bind {A B} (m : M A) (k : A -> M B) : M B :=
  fun s =>
    match m s with
    | (Return a, s') => k a s'
    | (Raise e, s') => (Raise e, s')
    | (Running, s') => (Running, s')
    end.

Declare Scope lab_scope.
Delimit Scope lab_scope with lab.
Notation "x <- m ;; k" := (bind m (fun x => k))
  (at level 100, m at next level, right associativity) : lab_scope.
Notation "m ;;; k" := (bind m (fun _ => k))
  (at level 100, right associativity) : lab_scope.
Local Open Scope lab_scope.

(** [assert c] *)
Definition py_assert (c : bool) : M unit :=
  if c then ret tt else raise AssertionError.

(** ** Position *)

(** Modelled from the spec: [Position] ([src/Position.py] is not among the
    sources), an immutable grid coordinate [{y, x}] compared by [(y, x)]. *)
Record Position : Type := mkPosition { y : Z; x : Z }.

#[global] Instance Position_eq_dec : EqDecision Position.
Proof. solve_decision. Defined.

Definition in_bounds (height width : Z) (p : Position) : Prop :=
  0 <= y p < height /\ 0 <= x p < width.

Definition cell (p : Position) : Z * Z := (y p, x p).

(** The cells of a grid of width [width], numbered row by row. *)
Definition nth_cell (width k : Z) : Position :=
  {| y := k / width; x := k mod width |}.

Definition cell_index (width : Z) (p : Position) : Z := y p * width + x p.

Section Lab.

Variable env : Env.

(** ** Oracle reads *)

(** [random.randint(a, b)]: some integer of [a..b], [ValueError] on an empty
    range.  The raw value of the random source is folded into the range, so
    every integer of the range can be drawn and nothing else can. *)
Definition randint (a b : Z) : M Z :=
  fun s =>
    if b <? a then (Raise ValueError, s)
    else (Return (a + entropy env (rand_calls s) mod (b - a + 1)),
          with_rand_calls (S (rand_calls s)) s).

(** Modelled from the spec: [Universe.get_time()] ([src/Universe.py] is not
    among the sources), the time elapsed since the universe was constructed,
    in nanoseconds; it never blocks and never fails.  Each call takes the
    next reading of the environment's clock. *)
Definition get_time : M Z :=
  fun s =>
    (Return (time_ns env (clock_calls s)), with_clock_calls (S (clock_calls s)) s).

(** [threading.active_count()] *)
Definition threading_active_count : M Z :=
  fun s =>
    (Return (active_count env (count_calls s)), with_count_calls (S (count_calls s)) s).

(** [time.sleep(d)] *)
Definition sleep (d : Q) : M unit :=
  fun s =>
    (Return tt, with_slept (slept s ++ [d]) s).

(** ** [Lab._generate_position]

    The function calls itself on a collision.  [frames] is the number of
    nested activations of it that the interpreter's stack still allows: the
    stack levels that are free at the call, less the levels an activation
    needs below its own for the calls it makes, of which the deepest is
    [randint -> randrange -> _randbelow -> getrandbits] (see
    [activations_allowed]).  Each activation takes one; the evaluation for
    which none is left ends in [RecursionError], at once or at its first
    call of [randint], and so before it draws. *)
Fixpoint _generate_position (frames : nat) (positions : list Position)
    (height width : Z) : M Position :=
  match frames with
  | O => raise RecursionError
  | S frames' =>
      y <- randint 0 (height - 1);;
      x <- randint 0 (width - 1);;
      let new_pos := {| y := y; x := x |} in
      if decide (new_pos ∉ positions)
      then ret new_pos
      else _generate_position frames' positions height width
  end.

(** The position made of the two values drawn at calls [c] and [c + 1] of
    [randint], on a grid of [height × width], written as [randint 0 (height - 1)]
    and [randint 0 (width - 1)] compute them. *)
Definition draw (height width : Z) (c : nat) : Position :=
  {| y := 0 + entropy env c mod (height - 1 - 0 + 1);
     x := 0 + entropy env (S c) mod (width - 1 - 0 + 1) |}.

(** Every in-bounds position is in [positions]: the grid is exhausted. *)
Definition covers (height width : Z) (positions : list Position) : Prop :=
  forall p, in_bounds height width p -> p ∈ positions.

(** Each of the next [count] searches for a position meets a free draw
    before the stack is used up.  The first search starts at call [c] of
    [randint] with [positions] taken: its first [k] draws collide, for some
    [k < frames], and the next one is free; the search after it starts where
    this one stopped, with that draw taken as well. *)
Fixpoint searches_succeed (frames : nat) (height width : Z) (count : nat)
    (positions : list Position) (c : nat) : Prop :=
  match count with
  | O => True
  | S count' =>
      exists k,
        (k < frames)%nat
        /\ (forall j, (j < k)%nat -> draw height width (c + 2 * j) ∈ positions)
        /\ (draw height width (c + 2 * k) ∉ positions)
        /\ searches_succeed frames height width count'
             (positions ++ [draw height width (c + 2 * k)]) (c + 2 * S k)
  end.

(** ** Universe and Agent *)

(** Modelled from the spec: [Agent] ([src/Agent.py] is not among the
    sources), as far as the controller deals with it: its identity, initial
    position, generation, parents, the barrier it shares with its cohort,
    and whether its thread has been started. *)
Record Agent : Type := mkAgent {
  id : nat;
  initial_position : Position;
  generation : nat;
  parents : option (nat * nat);
  start_barrier : Z;         (* parties of the shared barrier *)
  started : bool;
}.

(** Modelled from the spec: [Universe] ([src/Universe.py] is not among the
    sources): a grid of [height × width] cells, each empty or holding one
    agent identity, the registry of agents keyed by identity, the one-shot
    freeze flag, and the timestamp of the end of the run, unset until then. *)
Record Universe : Type := mkUniverse {
  u_height : Z;
  u_width : Z;
  space : gmap (Z * Z) nat;  (* cell -> agent id; a cell without entry is None *)
  population : gmap nat Agent;
  freeze : bool;
  culmination : option Z;
}.

(** [np.sum(universe.space != None)] *)
Definition occupied (u : Universe) : Z := Z.of_nat (size (space u)).

(** Modelled from the spec: the universe as its constructor leaves it, with
    every cell empty, nobody registered, the freeze flag unset. *)
Definition empty_universe (height width : Z) : Universe :=
  {| u_height := height; u_width := width; space := ∅; population := ∅;
     freeze := false; culmination := None |}.

(** Modelled from the spec: [Universe(height=height, width=width)]. *)
Definition Universe_init (height width : Z) : M Universe :=
  fun s => (Return (empty_universe height width), with_universes (S (universes s)) s).

(** Modelled from the spec: [Agent(universe=..., initial_position=...,
    generation=..., parents=..., start_barrier=...)].  The new agent takes
    the next identity, registers itself into [population] and is placed on
    the cell of its initial position, which has to lie on the grid and to be
    empty.  The universe it registered into is returned. *)
Definition Agent_init (universe : Universe) (initial_position : Position)
    (generation : nat) (parents : option (nat * nat)) (start_barrier : Z)
    : M Universe :=
  fun s =>
    if negb ((0 <=? y initial_position) && (y initial_position <? u_height universe)
             && (0 <=? x initial_position) && (x initial_position <? u_width universe))
    then (Raise IndexError, s)
    else
      match space universe !! cell initial_position with
      | Some _ => (Raise AssertionError, s)
      | None =>
          let a := {| id := agent_count s; initial_position := initial_position;
                      generation := generation; parents := parents;
                      start_barrier := start_barrier; started := false |} in
          (Return {| u_height := u_height universe; u_width := u_width universe;
                     space := <[cell initial_position := id a]> (space universe);
                     population := <[id a := a]> (population universe);
                     freeze := freeze universe;
                     culmination := culmination universe |},
           with_agent_count (S (agent_count s)) s)
      end.

(** ** [Lab._invoke_initial_population] *)

(** The enumeration has one member, so the [case _] branch of the [match]
    in [_invoke_initial_population], which raises [ValueError], is never
    taken. *)
Inductive Distributions : Type := random.

(** [for _ in range(count): positions.append(self._generate_position(positions, height, width))] *)
Fixpoint generate_positions (frames count : nat) (positions : list Position)
    (height width : Z) : M (list Position) :=
  match count with
  | O => ret positions
  | S count' =>
      p <- _generate_position frames positions height width;;
      generate_positions frames count' (positions ++ [p]) height width
  end.

(** [for pos in positions: Agent(universe=universe, initial_position=pos, ...)] *)
Fixpoint invoke_agents (universe : Universe) (start_barrier : Z)
    (positions : list Position) : M Universe :=
  match positions with
  | [] => ret universe
  | pos :: rest =>
      universe' <- Agent_init universe pos 0 None start_barrier;;
      invoke_agents universe' start_barrier rest
  end.

Definition _invoke_initial_population (frames : nat) (universe : Universe)
    (height width initial_population_count : Z) (distribution : Distributions)
    : M Universe :=
  positions <-
    match distribution with
    | random =>
        generate_positions frames (Z.to_nat initial_population_count) [] height width
    end;;
  let start_barrier := initial_population_count in
  invoke_agents universe start_barrier positions.

(** ** [Lab._start_initial_population]: [agent.start()] for every agent of
    the registry, under [population_lock] *)

(** Modelled from the spec: [agent.start()] makes the agent's thread
    runnable. *)
Definition Agent_start (a : Agent) : Agent :=
  {| id := id a; initial_position := initial_position a; generation := generation a;
     parents := parents a; start_barrier := start_barrier a; started := true |}.

Definition _start_initial_population (universe : Universe) : Universe :=
  {| u_height := u_height universe; u_width := u_width universe;
     space := space universe;
     population := Agent_start <$> population universe;
     freeze := freeze universe; culmination := culmination universe |}.

(** ** [Lab.experiment] *)

(** [int(ns / 1e9)]: whole seconds, truncated towards zero (the quotient is
    taken exactly, where Python rounds it to a double first). *)
Definition whole_seconds (ns : Z) : Z := ns ÷ 1000000000.

(** The two assignments that open the run phase:
    [total_duration_remaining = max_total_duration - max(0, int(start_running / 1e9))]
    [simulation_duration = min(total_duration_remaining, max_simulation_duration)] *)
Definition simulation_duration (max_total_duration max_simulation_duration
    start_running : Z) : Z :=
  let total_duration_remaining :=
    max_total_duration - Z.max 0 (whole_seconds start_running) in
  Z.min total_duration_remaining max_simulation_duration.

(** [range(n, 0, -1)] *)
Definition range_down (n : Z) : list Z :=
  (fun k : nat => n - Z.of_nat k) <$> seq 0 (Z.to_nat n).

(** Python's [max(a, b)]: [b] when it is greater, else [a]. *)
Definition py_max (a b : Q) : Q :=
  match (a ?= b)%Q with
  | Lt => b
  | _ => a
  end.

(** [(now - start_running) / 1e9], in seconds. *)
Definition elapsed_seconds (now start_running : Z) : Q :=
  (inject_Z (now - start_running) / inject_Z 1000000000)%Q.

(** [max(1 + simulation_duration - i - t, 0)], the argument of [sleep] at
    tick [i] when [t] seconds of the phase have elapsed. *)
Definition sleep_duration (simulation_duration i : Z) (t : Q) : Q :=
  py_max (inject_Z (1 + simulation_duration - i) - t)%Q 0%Q.

(** The [for i in range(simulation_duration, 0, -1)] loop over the ticks that
    are left; its result is [early_stop]. *)
Fixpoint run_loop (non_agents_threads start_running simulation_duration : Z)
    (ticks : list Z) : M bool :=
  match ticks with
  | [] => ret false
  | i :: ticks' =>
      n <- threading_active_count;;
      if n <=? non_agents_threads
      then ret true
      else
        now <- get_time;;
        let t := elapsed_seconds now start_running in
        sleep (sleep_duration simulation_duration i t);;;
        run_loop non_agents_threads start_running simulation_duration ticks'
  end.

(** The [# Run] block: the value of [early_stop] when the loop is left, and
    [timings["run"]]. *)
Definition experiment_run (non_agents_threads max_total_duration
    max_simulation_duration : Z) : M (bool * Z) :=
  start_running <- get_time;;
  let simulation_duration :=
    simulation_duration max_total_duration max_simulation_duration start_running in
  early_stop <-
    run_loop non_agents_threads start_running simulation_duration
      (range_down simulation_duration);;
  timings_run <- get_time;;
  ret (early_stop, timings_run).

(** Modelled from the spec: [universe.freeze.set()] sets the one-shot freeze
    flag. *)
Definition freeze_set (universe : Universe) : Universe :=
  {| u_height := u_height universe; u_width := u_width universe;
     space := space universe; population := population universe;
     freeze := true; culmination := culmination universe |}.

(** Modelled from the spec: [universe.culmination = t] records the end of
    the run. *)
Definition set_culmination (universe : Universe) (t : Z) : Universe :=
  {| u_height := u_height universe; u_width := u_width universe;
     space := space universe; population := population universe;
     freeze := freeze universe; culmination := Some t |}.

(** The [while active_agents > 0] loop; [fuel] bounds the iterations the
    model follows. *)
Fixpoint stop_loop (fuel : nat) (non_agents_threads active_agents : Z) : M unit :=
  if 0 <? active_agents then
    match fuel with
    | O => fun s => (Running, s)
    | S fuel' =>
        sleep (1 # 10);;;
        n <- threading_active_count;;
        stop_loop fuel' non_agents_threads (n - non_agents_threads)
    end
  else ret tt.

(** The [# Stop] block up to the end of the drain.  The universe is carried
    as the controller's handle on the shared object: what the agent threads
    do to it while the controller polls (moves, births, deregistration) is
    not modelled, and of the universe handed on only what the controller
    sets itself, the freeze flag, is meant. *)
Definition experiment_stop (fuel : nat) (universe : Universe)
    (non_agents_threads : Z) : M Universe :=
  let universe := freeze_set universe in
  n <- threading_active_count;;
  stop_loop fuel non_agents_threads (n - non_agents_threads);;;
  ret universe.

(** The dictionary [experiment] returns.  [parameters] and [timings] keep the
    insertion order of the Python dictionaries. *)
Record Result : Type := mkResult {
  parameters : list (string * Z);
  timings : list (string * Z);
  universe : Universe;
}.

(** The blocks [# Universe], [# Invoke population] and [# Start population]:
    the universe with its started population, [non_agents_threads], and the
    three timings recorded so far. *)
Definition experiment_setup (frames : nat) (height width
    initial_population_count : Z) : M (Universe * Z * list (string * Z)) :=
  (* Universe *)
  universe <- Universe_init height width;;
  init_universe <- get_time;;
  (* Invoke population *)
  universe <-
    _invoke_initial_population frames universe height width
      initial_population_count random;;
  py_assert (occupied universe =? initial_population_count);;;
  invoke_initial_population <- get_time;;
  (* Start population *)
  non_agents_threads <- threading_active_count;;
  let universe := _start_initial_population universe in
  start_initial_population <- get_time;;
  ret (universe, non_agents_threads,
       [("init_universe"%string, init_universe);
        ("invoke_initial_population"%string, invoke_initial_population);
        ("start_initial_population"%string, start_initial_population)]).

(** [experiment].  The universe of the result is the controller's handle on
    the shared object; the changes the started agents make to it, and to
    [Agent.count], during the run and stop phases are not modelled, so of the
    returned universe only what the controller sets itself (the freeze flag,
    the culmination) is meant. *)
Definition experiment (frames fuel : nat) (height width initial_population_count
    max_total_duration max_simulation_duration : Z) : M Result :=
  py_assert (initial_population_count <=? height * width);;;
  let parameters :=
    [("height"%string, height); ("width"%string, width);
     ("initial_population_count"%string, initial_population_count);
     ("max_total_duration"%string, max_total_duration);
     ("max_simulation_duration"%string, max_simulation_duration)] in
  setup <- experiment_setup frames height width initial_population_count;;
  let '(universe, non_agents_threads, timings) := setup in
  (* Run *)
  run <- experiment_run non_agents_threads max_total_duration max_simulation_duration;;
  let early_stop := fst run in
  let timings := timings ++ [("run"%string, snd run)] in
  (* Stop *)
  universe <- experiment_stop fuel universe non_agents_threads;;
  now <- get_time;;
  let universe := set_culmination universe now in
  (* timings["stop"] = universe.culmination, the value just assigned *)
  let timings := timings ++ [("stop"%string, now)] in
  ret {| parameters := parameters; timings := timings; universe := universe |}.

End Lab.

(** ** Two runs of one configuration

    A grid of one cell with one agent, [max_total_duration = 10],
    [max_simulation_duration = 2].  In both runs the first sleep of the run
    phase lasts two seconds instead of one.  In [env_extinct] the agent's
    thread has ended by the second tick; in [env_alive] it is still running
    at the second tick and has ended by the time the stop phase counts the
    threads. *)

Definition env_extinct : Env :=
  {| entropy := fun _ => 0;
     time_ns := fun k =>
       match k with
       | 0%nat => 1000 | 1%nat => 2000 | 2%nat => 3000 | 3%nat => 4000
       | 4%nat => 5000
       | 5%nat => 2000500000
       | _ => 2000600000
       end;
     active_count := fun k => match k with 1%nat => 2 | _ => 1 end |}.

Definition env_alive : Env :=
  {| entropy := fun _ => 0;
     time_ns := fun k =>
       match k with
       | 0%nat => 1000 | 1%nat => 2000 | 2%nat => 3000 | 3%nat => 4000
       | 4%nat => 5000
       | 5%nat => 2000400000
       | 6%nat => 2000500000
       | _ => 2000600000
       end;
     active_count := fun k => match k with 1%nat => 2 | 2%nat => 2 | _ => 1 end |}.

(** The controller's state when the setup of these runs is done. *)
Definition state_after_setup : State :=
  {| rand_calls := 2; clock_calls := 3; count_calls := 1; agent_count := 1;
     universes := 1; slept := [] |}.

(** ** Environments used in the examples *)

(** A random source whose first [2 * n] raw values are 0 and the later ones
    1; the clock advances 0.1 s per reading; only the main thread runs. *)
Definition env_colliding (n : nat) : Env :=
  {| entropy := fun k => if (k <? 2 * n)%nat then 0 else 1;
     time_ns := fun k => Z.of_nat k * 100000000;
     active_count := fun _ => 1 |}.

(** A random source that counts up, two calls per value. *)
Definition env_counting : Env :=
  {| entropy := fun k => Z.of_nat k / 2;
     time_ns := fun k => Z.of_nat k * 100000000;
     active_count := fun _ => 1 |}.

(** The default recursion limit of the interpreter; no evaluation is allowed
    more activations than this. *)
Definition default_recursion_limit : nat := 1000.

(** The nested activations of [_generate_position] that [levels] free stack
    levels allow, when a call of [randint] takes [randint_levels] levels
    below its caller: an activation can draw only if that many levels are
    left below its own. *)
Definition activations_allowed (randint_levels levels : nat) : nat :=
  levels - randint_levels.

(** The levels a call of [random.randint] takes in CPython 3.11: [randint],
    [randrange], [_randbelow] and the call of [getrandbits]. *)
Definition randint_levels_cpython311 : nat := 4.

(** A recorded run on a grid of 3 × 4: the raw values of the random source
    are those of the list (the draws (2,1), (0,3), (2,1), (1,1), (2,1),
    (0,3), (0,0), (1,2) and then (0,0) for ever), the clock advances 0.1 s
    per reading, the thread count is 1 before the agents are started, 2 at
    the next four readings and 1 from the sixth reading on. *)
Definition env_recorded : Env :=
  {| entropy := fun k => nth k [2; 1; 0; 3; 2; 1; 1; 1; 2; 1; 0; 3; 0; 0; 1; 2] 0;
     time_ns := fun k => Z.of_nat k * 100000000;
     active_count := fun k =>
       match k with
       | 0%nat => 1
       | 1%nat | 2%nat | 3%nat | 4%nat => 2
       | _ => 1
       end |}.

(** ** Notions used in the further properties *)

(** Every agent registered in [universe] carries its registry key as
    identity, belongs to generation 0, has no parents, shares a barrier of
    [parties] parties, has its thread in the state [is_started], and stands
    on a cell of the grid that holds its identity. *)
Definition cohort (parties : Z) (is_started : bool) (universe : Universe) : Prop :=
  forall i a, population universe !! i = Some a ->
    id a = i /\ generation a = 0%nat /\ parents a = None
    /\ start_barrier a = parties /\ started a = is_started
    /\ in_bounds (u_height universe) (u_width universe) (initial_position a)
    /\ space universe !! cell (initial_position a) = Some i.

(** The arguments of [sleep] over the ticks [ticks], when the clock reading
    of the first of them is the call [c] of [get_time]. *)
Fixpoint tick_sleeps (env : Env) (start_running simulation_duration : Z) (c : nat)
    (ticks : list Z) : list Q :=
  match ticks with
  | [] => []
  | i :: ticks' =>
      sleep_duration simulation_duration i
        (elapsed_seconds (time_ns env c) start_running)
      :: tick_sleeps env start_running simulation_duration (S c) ticks'
  end.

(** An environment in which an agent thread never ends. *)
Definition env_stuck : Env :=
  {| entropy := fun _ => 0;
     time_ns := fun k => Z.of_nat k * 100000000;
     active_count := fun k => match k with 0%nat => 1 | _ => 2 end |}.

(** * [Lab.vizuaanalyze]: the figures it prints and the grid of its plots

    The function reads the class attributes [Agent.count] and
    [Agent.population]; they are parameters here, the population being given
    by the list of [len(agent.path)] over its agents, in the order of the
    registry, so that [agents[i]] exists exactly when the list has an entry
    [i].  Of the plotting calls in the loop over [range(n_viz)] what is kept
    is the index [i + 1] each subplot is created with and the access to
    [agents[i]], which raises [IndexError] past the end of the list.  The
    three floating-point results
    are taken exactly: [int(a / b)] as the truncated quotient,
    [ceil(n ** (1 / 2))] as the integer square root rounded up, [ceil(a / b)]
    as the quotient rounded up. *)

Module Analysis.

Inductive exn : Type :=
| ZeroDivisionError
| TypeError
| IndexError.

(** [sum(l)] *)
Definition py_sum (l : list Z) : Z := foldr Z.add 0 l.

(** [int(a / b)] *)
Definition int_quotient (a b : Z) : exn + Z :=
  if b =? 0 then inl ZeroDivisionError else inr (a ÷ b).

(** [ceil(n ** (1 / 2))]; a negative base gives a complex power, which
    [ceil] rejects. *)
Definition ceil_sqrt (n : Z) : exn + Z :=
  if n <? 0 then inl TypeError else inr (Z.sqrt_up n).

(** [ceil(a / b)] *)
Definition ceil_quotient (a b : Z) : exn + Z :=
  if b =? 0 then inl ZeroDivisionError else inr (- (- a / b)).

Record Figures : Type := mkFigures {
  n_viz : Z;               (* min(n_viz, Agent.count) *)
  path_len_mean : Z;
  path_len_median : Z;
  n_rows : Z;
  n_cols : Z;
  subplots : list Z;       (* the index i + 1 of each plt.subplot call *)
}.

(** [for i in range(n_viz): plt.subplot(n_rows, n_cols, i + 1);
    plt.imshow(agents[i].array_path); ...] over the indices that are left:
    the indices the subplots were created with. *)
Fixpoint plot_paths (agents : list Z) (indices : list nat) : exn + list Z :=
  match indices with
  | [] => inr []
  | i :: indices' =>
      match agents !! i with
      | None => inl IndexError
      | Some _ =>
          match plot_paths agents indices' with
          | inl e => inl e
          | inr subplots => inr ((Z.of_nat i + 1) :: subplots)
          end
      end
  end.

Definition vizuaanalyze (Agent_count : Z) (paths : list Z) (n_viz : Z)
    : exn + Figures :=
  let n_viz := Z.min n_viz Agent_count in
  let paths_lengths := merge_sort Z.le paths in
  match int_quotient (py_sum paths_lengths) (Z.of_nat (length paths_lengths)) with
  | inl e => inl e
  | inr path_len_mean =>
      match paths_lengths !! (length paths_lengths / 2)%nat with
      | None => inl IndexError
      | Some path_len_median =>
          match ceil_sqrt n_viz with
          | inl e => inl e
          | inr n_rows =>
              match ceil_quotient n_viz n_rows with
              | inl e => inl e
              | inr n_cols =>
                  let agents := paths in
                  match plot_paths agents (seq 0 (Z.to_nat n_viz)) with
                  | inl e => inl e
                  | inr subplots =>
                      inr {| n_viz := n_viz; path_len_mean := path_len_mean;
                             path_len_median := path_len_median;
                             n_rows := n_rows; n_cols := n_cols;
                             subplots := subplots |}
                  end
              end
          end
      end
  end.

End Analysis.

(** * Properties *)

(** ** The monad *)

Lemma bind_Return {A B} (m : M A) (k : A -> M B) s a s' :
  m s = (Return a, s') -> bind m k s = k a s'.
Proof. intros H. unfold bind. by rewrite H. Qed.

Lemma bind_Raise {A B} (m : M A) (k : A -> M B) s e s' :
  m s = (Raise e, s') -> bind m k s = (Raise e, s').
Proof. intros H. unfold bind. by rewrite H. Qed.

Lemma bind_Return_inv {A B} (m : M A) (k : A -> M B) s b s' :
  bind m k s = (Return b, s') ->
  exists a s1, m s = (Return a, s1) /\ k a s1 = (Return b, s').
Proof.
  unfold bind. destruct (m s) as [[a | e |] s1] eqn:E; intros H; try discriminate.
  by exists a, s1.
Qed.

Ltac bind_inv H :=
  let a := fresh "a" in
  let s := fresh "s" in
  let Ha := fresh "Hm" in
  apply bind_Return_inv in H as (a & s & Ha & H).

Ltac state_eq :=
  unfold with_rand_calls, with_clock_calls, with_count_calls, with_agent_count,
    with_universes, with_slept;
  cbn [rand_calls clock_calls count_calls agent_count universes slept];
  f_equal; lia.

(** Turns the index of the draw in the goal into [c]. *)
Ltac draw_at c :=
  match goal with
  | |- context [draw ?e ?h ?w ?a] =>
      replace a with c by (cbn [rand_calls with_rand_calls]; lia)
  end.

(** ** Draws of the position generator *)

Section Generator.

Variable env : Env.

Lemma draw_in_bounds height width c :
  1 <= height -> 1 <= width -> in_bounds height width (draw env height width c).
Proof.
  intros Hh Hw. unfold in_bounds, draw; simpl.
  replace (height - 1 - 0 + 1) with height by lia.
  replace (width - 1 - 0 + 1) with width by lia.
  pose proof (Z.mod_pos_bound (entropy env c) height).
  pose proof (Z.mod_pos_bound (entropy env (S c)) width).
  lia.
Qed.

Lemma randint_Return a b s :
  a <= b ->
  randint env a b s =
    (Return (a + entropy env (rand_calls s) mod (b - a + 1)),
     with_rand_calls (S (rand_calls s)) s).
Proof.
  intros H. unfold randint. destruct (b <? a) eqn:E; [lia | done].
Qed.

Lemma randint_Return_inv a b s v s' :
  randint env a b s = (Return v, s') ->
  a <= b /\ v = a + entropy env (rand_calls s) mod (b - a + 1)
  /\ s' = with_rand_calls (S (rand_calls s)) s.
Proof.
  unfold randint. destruct (b <? a) eqn:E; intros H; [discriminate |].
  inversion H. repeat split; lia.
Qed.

(** One activation of [_generate_position] on a grid with cells. *)
Lemma _generate_position_step frames positions height width s :
  1 <= height -> 1 <= width ->
  _generate_position env (S frames) positions height width s =
    if decide (draw env height width (rand_calls s) ∈ positions)
    then _generate_position env frames positions height width
           (with_rand_calls (2 + rand_calls s) s)
    else (Return (draw env height width (rand_calls s)),
          with_rand_calls (2 + rand_calls s) s).
Proof.
  intros Hh Hw. simpl.
  rewrite (bind_Return _ _ _ _ _ (randint_Return 0 (height - 1) s ltac:(lia))).
  rewrite (bind_Return _ _ _ _ _ (randint_Return 0 (width - 1) _ ltac:(lia))).
  unfold draw. cbn [rand_calls with_rand_calls].
  destruct (decide (_ ∉ _)) as [Hn | Hin]; destruct (decide (_ ∈ _)) as [Hin' | Hn'];
    try reflexivity; exfalso; auto.
Qed.

(** When the first [frames] draws all collide, the activations use up the
    stack: [RecursionError], after [2 * frames] calls of [randint]. *)
Lemma _generate_position_collisions frames positions height width s :
  1 <= height -> 1 <= width ->
  (forall j, (j < frames)%nat ->
     draw env height width (rand_calls s + 2 * j) ∈ positions) ->
  _generate_position env frames positions height width s =
    (Raise RecursionError, with_rand_calls (rand_calls s + 2 * frames) s).
Proof.
  intros Hh Hw. revert s. induction frames as [| frames IH]; intros s Hall.
  - cbn [_generate_position]. unfold raise. f_equal. destruct s. state_eq.
  - rewrite _generate_position_step by done.
    destruct (decide _) as [_ | Hn].
    + rewrite IH.
      * f_equal. state_eq.
      * intros j Hj. draw_at (rand_calls s + 2 * S j)%nat. apply Hall. lia.
    + exfalso. apply Hn. draw_at (rand_calls s + 2 * 0)%nat. apply Hall. lia.
Qed.

(** When [k] draws collide and the next one is free, an evaluation with more
    than [k] frames returns that draw. *)
Lemma _generate_position_returns frames k positions height width s :
  1 <= height -> 1 <= width ->
  (forall j, (j < k)%nat ->
     draw env height width (rand_calls s + 2 * j) ∈ positions) ->
  draw env height width (rand_calls s + 2 * k) ∉ positions ->
  (k < frames)%nat ->
  _generate_position env frames positions height width s =
    (Return (draw env height width (rand_calls s + 2 * k)),
     with_rand_calls (rand_calls s + 2 * S k) s).
Proof.
  intros Hh Hw. revert frames s.
  induction k as [| k IH]; intros frames s Hall Hfree Hlt.
  - destruct frames as [| frames]; [lia |].
    rewrite _generate_position_step by done.
    destruct (decide _) as [Hin | _].
    + exfalso. apply Hfree. by draw_at (rand_calls s).
    + f_equal; [f_equal; f_equal; lia | state_eq].
  - destruct frames as [| frames]; [lia |].
    rewrite _generate_position_step by done.
    destruct (decide _) as [_ | Hn].
    + rewrite (IH frames).
      * f_equal; [f_equal; f_equal; cbn [rand_calls with_rand_calls]; lia | state_eq].
      * intros j Hj. draw_at (rand_calls s + 2 * S j)%nat. apply Hall. lia.
      * by draw_at (rand_calls s + 2 * S k)%nat.
      * lia.
    + exfalso. apply Hn. draw_at (rand_calls s + 2 * 0)%nat. apply Hall. lia.
Qed.

(** What a returned position is: a draw that is not among [positions]. *)
Lemma _generate_position_Return_inv frames positions height width s p s' :
  _generate_position env frames positions height width s = (Return p, s') ->
  1 <= height /\ 1 <= width /\ (p ∉ positions) /\
  exists k, (k < frames)%nat /\ p = draw env height width (rand_calls s + 2 * k)
            /\ s' = with_rand_calls (rand_calls s + 2 * S k) s
            /\ (forall j, (j < k)%nat ->
                  draw env height width (rand_calls s + 2 * j) ∈ positions).
Proof.
  revert s. induction frames as [| frames IH]; intros s H; [discriminate |].
  assert (1 <= height /\ 1 <= width) as [Hh Hw].
  { cbn [_generate_position] in H.
    bind_inv H. apply randint_Return_inv in Hm as (? & _ & ->).
    bind_inv H. apply randint_Return_inv in Hm as (? & _ & _). lia. }
  rewrite _generate_position_step in H by done.
  destruct (decide _) as [Hin | Hn].
  - apply IH in H as (_ & _ & Hp & k & Hk & -> & -> & Hall).
    do 3 (split; [done |]).
    exists (S k). split; [lia |]. split.
    { f_equal; cbn [rand_calls with_rand_calls]; lia. }
    split; [state_eq |].
    intros [| j] Hj.
    + by draw_at (rand_calls s).
    + draw_at (rand_calls (with_rand_calls (2 + rand_calls s) s) + 2 * j)%nat.
      apply Hall. lia.
  - inversion H; subst. do 3 (split; [done |]).
    exists 0%nat. split; [lia |].
    split; [f_equal; lia |]. split; [state_eq | intros; lia].
Qed.

(** A position is returned as soon as one of the draws the stack allows is
    free. *)
Lemma _generate_position_total frames positions height width s :
  1 <= height -> 1 <= width ->
  (exists k, (k < frames)%nat /\
     draw env height width (rand_calls s + 2 * k) ∉ positions) ->
  exists p s', _generate_position env frames positions height width s = (Return p, s').
Proof.
  intros Hh Hw. revert s.
  induction frames as [| frames IH]; intros s (k & Hk & Hfree); [lia |].
  rewrite _generate_position_step by done.
  destruct (decide _) as [Hin | Hn]; [| by eauto].
  apply IH. destruct k as [| k].
  - exfalso. apply Hfree. by draw_at (rand_calls s).
  - exists k. split; [lia |]. by draw_at (rand_calls s + 2 * S k)%nat.
Qed.

(** *** A list shorter than the grid leaves a cell free *)

Lemma nth_cell_in_bounds height width k :
  1 <= width -> 0 <= k < height * width -> in_bounds height width (nth_cell width k).
Proof.
  intros Hw Hk. unfold in_bounds, nth_cell; cbn [y x].
  pose proof (Z.mod_pos_bound k width ltac:(lia)).
  split; [| lia]. split.
  - apply Z.div_pos; lia.
  - apply Z.div_lt_upper_bound; lia.
Qed.

Lemma cell_index_nth_cell width k :
  1 <= width -> cell_index width (nth_cell width k) = k.
Proof.
  intros Hw. unfold cell_index, nth_cell; cbn [y x].
  pose proof (Z.div_mod k width ltac:(lia)). lia.
Qed.

(** *** The loop that builds the position list *)

Lemma generate_positions_Return_inv frames count positions height width s
    positions' s' :
  generate_positions env frames count positions height width s
    = (Return positions', s') ->
  NoDup positions -> Forall (in_bounds height width) positions ->
  NoDup positions' /\ Forall (in_bounds height width) positions'
  /\ length positions' = (length positions + count)%nat.
Proof.
  revert positions s. induction count as [| count IH]; intros positions s H Hnd Hb.
  - inversion H; subst. repeat split; [done | done | lia].
  - cbn [generate_positions] in H. bind_inv H.
    apply _generate_position_Return_inv in Hm
      as (Hh & Hw & Hp & k & _ & -> & _ & _).
    apply IH in H as (? & ? & Hlen).
    + repeat split; [done | done |]. rewrite Hlen, List.length_app. simpl. lia.
    + apply NoDup_app. split; [done |]. split; [| apply NoDup_singleton].
      intros q Hq Hq'. apply list_elem_of_singleton in Hq'. by subst.
    + apply Forall_app. split; [done |]. apply Forall_singleton.
      by apply draw_in_bounds.
Qed.

Lemma generate_positions_searches frames count positions height width s :
  1 <= height -> 1 <= width ->
  searches_succeed env frames height width count positions (rand_calls s) ->
  exists positions' s',
    generate_positions env frames count positions height width s
      = (Return positions', s').
Proof.
  intros Hh Hw. revert positions s.
  induction count as [| count IH]; intros positions s Hsearch.
  - by exists positions, s.
  - destruct Hsearch as (k & Hk & Hcol & Hfree & Hrest).
    cbn [generate_positions].
    rewrite (bind_Return _ _ _ _ _
               (_generate_position_returns frames k positions height width s
                  Hh Hw Hcol Hfree Hk)).
    apply IH. exact Hrest.
Qed.

Lemma generate_positions_Return_searches frames count positions height width s
    positions' s' :
  generate_positions env frames count positions height width s
    = (Return positions', s') ->
  searches_succeed env frames height width count positions (rand_calls s).
Proof.
  revert positions s. induction count as [| count IH]; intros positions s H.
  - exact I.
  - cbn [generate_positions] in H. bind_inv H.
    apply _generate_position_Return_inv in Hm
      as (_ & _ & Hfree & k & Hk & -> & -> & Hcol).
    exists k. split; [done |]. split; [done |]. split; [done |].
    apply IH in H. exact H.
Qed.

End Generator.

(** ** Placing the agents *)

Lemma cell_inj p q : cell p = cell q -> p = q.
Proof. destruct p, q. unfold cell; simpl. by intros [= -> ->]. Qed.

Lemma Agent_init_Return universe pos generation parents start_barrier s :
  in_bounds (u_height universe) (u_width universe) pos ->
  space universe !! cell pos = None ->
  exists universe',
    Agent_init universe pos generation parents start_barrier s
      = (Return universe', with_agent_count (S (agent_count s)) s)
    /\ u_height universe' = u_height universe
    /\ u_width universe' = u_width universe
    /\ space universe' = <[cell pos := agent_count s]> (space universe).
Proof.
  intros [Hy Hx] Hfree. unfold Agent_init.
  assert ((0 <=? y pos) && (y pos <? u_height universe)
          && (0 <=? x pos) && (x pos <? u_width universe) = true) as ->.
  { repeat (apply andb_true_intro; split); lia. }
  cbn [negb]. rewrite Hfree. eexists. split; [reflexivity |]. done.
Qed.

Lemma invoke_agents_Return universe start_barrier (positions : list Position) s :
  Forall (in_bounds (u_height universe) (u_width universe)) positions ->
  NoDup positions ->
  (forall p, p ∈ positions -> space universe !! cell p = None) ->
  exists universe',
    invoke_agents universe start_barrier positions s
      = (Return universe', with_agent_count (agent_count s + length positions) s)
    /\ u_height universe' = u_height universe
    /\ u_width universe' = u_width universe
    /\ size (space universe') = (size (space universe) + length positions)%nat.
Proof.
  revert universe s.
  induction positions as [| pos rest IH]; intros universe s Hb Hnd Hfree.
  - exists universe. cbn [invoke_agents length]. unfold ret.
    split; [f_equal; destruct s; state_eq |]. repeat split; lia.
  - apply Forall_cons in Hb as [Hpos Hrest].
    apply NoDup_cons in Hnd as [Hnotin Hnd].
    destruct (Agent_init_Return universe pos 0%nat None start_barrier s Hpos)
      as (u1 & Hinit & Hh1 & Hw1 & Hspace1).
    { apply Hfree. by left. }
    destruct (IH u1 (with_agent_count (S (agent_count s)) s))
      as (u2 & Hrun & Hh2 & Hw2 & Hsize2).
    + by rewrite Hh1, Hw1.
    + done.
    + intros p Hp. rewrite Hspace1. rewrite lookup_insert_ne.
      * apply Hfree. by right.
      * intros Heq. apply cell_inj in Heq. by subst.
    + exists u2. cbn [invoke_agents]. rewrite (bind_Return _ _ _ _ _ Hinit).
      rewrite Hrun. cbn [length]. split; [f_equal; state_eq |].
      split; [congruence |]. split; [congruence |].
      rewrite Hsize2, Hspace1, map_size_insert_None by (apply Hfree; by left).
      cbn [length]. lia.
Qed.

(** ** The position generator: stack use, exhaustion, bounds *)

Lemma draw_env_colliding n j :
  draw (env_colliding n) 1 2 (2 * j) =
    {| y := 0; x := if (j <? n)%nat then 0 else 1 |}.
Proof.
  unfold draw, env_colliding; cbn [entropy].
  destruct (2 * j <? 2 * n)%nat eqn:E1; destruct (S (2 * j) <? 2 * n)%nat eqn:E2;
    destruct (j <? n)%nat eqn:E3;
    rewrite ?Nat.ltb_lt, ?Nat.ltb_ge in *; try lia; reflexivity.
Qed.

(** [k] collisions in a row take the evaluation [k] activations down. *)
Lemma _generate_position_nests env k frames positions height width s :
  1 <= height -> 1 <= width ->
  (forall j, (j < k)%nat ->
     draw env height width (rand_calls s + 2 * j) ∈ positions) ->
  _generate_position env (k + frames) positions height width s
    = _generate_position env frames positions height width
        (with_rand_calls (rand_calls s + 2 * k) s).
Proof.
  intros Hh Hw. revert s. induction k as [| k IH]; intros s Hall.
  - cbn [Nat.add]. f_equal. destruct s. state_eq.
  - cbn [Nat.add]. rewrite _generate_position_step by done.
    destruct (decide _) as [_ | Hn].
    + rewrite IH.
      * f_equal. state_eq.
      * intros j Hj. draw_at (rand_calls s + 2 * S j)%nat. apply Hall. lia.
    + exfalso. apply Hn. draw_at (rand_calls s + 2 * 0)%nat. apply Hall. lia.
Qed.

(** C2, as the code has it: the generator is recursive rejection sampling,
    not a loop.  Its retry on a collision is a call of itself inside the
    activation that collided, so every collision takes the evaluation one
    activation deeper: after [k] collisions in a row it goes on [k]
    activations down, with [k] fewer left to it.  The depth is not bounded
    over the inputs: whatever number of activations the stack allows, there
    is a set of positions that does not cover its grid and a run of draws on
    which the evaluation needs one more, raising [RecursionError] without it
    and returning a position with it. *)
Theorem _generate_position_retry_nests :
  (forall env positions height width s k frames,
     1 <= height -> 1 <= width ->
     (forall j, (j < k)%nat ->
        draw env height width (rand_calls s + 2 * j) ∈ positions) ->
     _generate_position env (k + frames) positions height width s
       = _generate_position env frames positions height width
           (with_rand_calls (rand_calls s + 2 * k) s))
  /\ (forall frames,
        exists env positions height width s p s',
          ~ covers height width positions
          /\ fst (_generate_position env frames positions height width s)
             = Raise RecursionError
          /\ _generate_position env (S frames) positions height width s
             = (Return p, s')).
Proof.
  split.
  - intros env positions height width s k frames Hh Hw Hall.
    by apply _generate_position_nests.
  - intros frames.
    assert (forall j, (j < frames)%nat ->
              draw (env_colliding frames) 1 2 (rand_calls initial_state + 2 * j)
                ∈ [{| y := 0; x := 0 |}]) as Hall.
    { intros j Hj. cbn [rand_calls initial_state Nat.add].
      rewrite draw_env_colliding.
      destruct (j <? frames)%nat eqn:E; [by left | apply Nat.ltb_ge in E; lia]. }
    assert (draw (env_colliding frames) 1 2 (rand_calls initial_state + 2 * frames)
              ∉ [{| y := 0; x := 0 |}]) as Hfree.
    { cbn [rand_calls initial_state Nat.add]. rewrite draw_env_colliding.
      rewrite Nat.ltb_irrefl. intros Hin.
      by apply list_elem_of_singleton in Hin. }
    exists (env_colliding frames), [{| y := 0; x := 0 |}], 1, 2, initial_state.
    eexists _, _. split; [| split].
    + intros Hcov. specialize (Hcov {| y := 0; x := 1 |}).
      assert (in_bounds 1 2 {| y := 0; x := 1 |}) as Hb
        by (unfold in_bounds; cbn [y x]; lia).
      apply Hcov in Hb. by apply list_elem_of_singleton in Hb.
    + by rewrite (_generate_position_collisions (env_colliding frames) frames
                 [{| y := 0; x := 0 |}] 1 2 initial_state ltac:(lia) ltac:(lia) Hall).
    + apply (_generate_position_returns (env_colliding frames) (S frames) frames
               [{| y := 0; x := 0 |}] 1 2 initial_state); [lia | lia | done | done | lia].
Qed.

(** On the grid of two cells with one taken and three collisions before the
    free draw, in CPython 3.11: with seven stack levels free at the call the
    fourth activation cannot draw any more, with eight it returns. *)
Lemma _generate_position_retry_nests_witness :
  _generate_position (env_colliding 3)
    (activations_allowed randint_levels_cpython311 7) [{| y := 0; x := 0 |}] 1 2
    initial_state
    = (Raise RecursionError, with_rand_calls 6 initial_state)
  /\ _generate_position (env_colliding 3)
       (activations_allowed randint_levels_cpython311 8) [{| y := 0; x := 0 |}] 1 2
       initial_state
     = (Return {| y := 0; x := 1 |}, with_rand_calls 8 initial_state).
Proof.
  assert (forall j, (j < 3)%nat ->
            draw (env_colliding 3) 1 2 (rand_calls initial_state + 2 * j)
              ∈ [{| y := 0; x := 0 |}]) as Hall.
  { intros j Hj. cbn [rand_calls initial_state Nat.add].
    rewrite draw_env_colliding. destruct (j <? 3)%nat eqn:E.
    - by left.
    - apply Nat.ltb_ge in E. lia. }
  split.
  - change (activations_allowed randint_levels_cpython311 7) with (3 + 0)%nat.
    rewrite (proj1 _generate_position_retry_nests (env_colliding 3)
               [{| y := 0; x := 0 |}] 1 2 initial_state 3%nat 0%nat
               ltac:(lia) ltac:(lia) Hall).
    reflexivity.
  - change (activations_allowed randint_levels_cpython311 8) with (3 + 1)%nat.
    rewrite (proj1 _generate_position_retry_nests (env_colliding 3)
               [{| y := 0; x := 0 |}] 1 2 initial_state 3%nat 1%nat
               ltac:(lia) ltac:(lia) Hall).
    reflexivity.
Defined.

(** C2, as the specification words it, does not hold: no number of nested
    activations is enough for every evaluation that some number of them lets
    return, so the retry on a collision does grow the stack. *)
Lemma _generate_position_stack_not_bounded :
  ~ exists bound : nat,
      forall env positions height width s frames p s',
        _generate_position env frames positions height width s = (Return p, s') ->
        _generate_position env bound positions height width s = (Return p, s').
Proof.
  intros [bound H].
  pose (positions := [{| y := 0; x := 0 |}]).
  assert (forall j, (j < bound)%nat ->
            draw (env_colliding bound) 1 2 (rand_calls initial_state + 2 * j)
              ∈ positions) as Hall.
  { intros j Hj. cbn [rand_calls initial_state Nat.add].
    rewrite draw_env_colliding.
    destruct (j <? bound)%nat eqn:E; [by left | apply Nat.ltb_ge in E; lia]. }
  assert (draw (env_colliding bound) 1 2 (rand_calls initial_state + 2 * bound)
            ∉ positions) as Hfree.
  { cbn [rand_calls initial_state Nat.add]. rewrite draw_env_colliding.
    rewrite Nat.ltb_irrefl. intros Hin.
    by apply list_elem_of_singleton in Hin. }
  pose proof (_generate_position_returns (env_colliding bound) (S bound) bound
                positions 1 2 initial_state ltac:(lia) ltac:(lia) Hall Hfree
                ltac:(lia)) as Hret.
  apply H in Hret.
  rewrite (_generate_position_collisions (env_colliding bound) bound positions
             1 2 initial_state ltac:(lia) ltac:(lia) Hall) in Hret.
  discriminate.
Qed.

Lemma covers_one_cell : covers 1 1 [{| y := 0; x := 0 |}].
Proof.
  intros [py px] [Hy Hx]; cbn [y x] in *.
  replace py with 0 by lia. replace px with 0 by lia. by left.
Qed.

(** C3, as the code has it: on an exhausted grid the generator raises no
    configuration error and returns no position.  Every draw collides, so
    each activation calls the next one until the activations the stack
    allows are used up, and the outcome is [RecursionError]. *)
Theorem _generate_position_exhausted env positions height width frames s :
  1 <= height -> 1 <= width -> covers height width positions ->
  _generate_position env frames positions height width s =
    (Raise RecursionError, with_rand_calls (rand_calls s + 2 * frames) s).
Proof.
  intros Hh Hw Hcov. apply _generate_position_collisions; [done | done |].
  intros j _. apply Hcov. by apply draw_in_bounds.
Qed.

Lemma _generate_position_exhausted_witness :
  _generate_position env_counting default_recursion_limit [{| y := 0; x := 0 |}] 1 1
    initial_state
    = (Raise RecursionError, with_rand_calls 2000 initial_state).
Proof.
  apply (_generate_position_exhausted env_counting [{| y := 0; x := 0 |}] 1 1
           default_recursion_limit initial_state);
    [lia | lia | exact covers_one_cell].
Defined.

(** C3, as the specification words it, does not hold: on the exhausted
    one-cell grid the outcome is [RecursionError], which is none of the
    errors the controller raises for a bad configuration ([AssertionError]
    of the entry check, [ValueError] of an unknown distribution). *)
Lemma _generate_position_exhausted_no_configuration_error :
  covers 1 1 [{| y := 0; x := 0 |}]
  /\ fst (_generate_position env_counting default_recursion_limit
            [{| y := 0; x := 0 |}] 1 1 initial_state) = Raise RecursionError
  /\ fst (_generate_position env_counting default_recursion_limit
            [{| y := 0; x := 0 |}] 1 1 initial_state) <> Raise AssertionError
  /\ fst (_generate_position env_counting default_recursion_limit
            [{| y := 0; x := 0 |}] 1 1 initial_state) <> Raise ValueError.
Proof.
  split; [exact covers_one_cell |].
  rewrite (_generate_position_collisions env_counting default_recursion_limit
             [{| y := 0; x := 0 |}] 1 1 initial_state ltac:(lia) ltac:(lia)).
  - cbn [fst]. repeat split; discriminate.
  - intros j _. apply covers_one_cell. apply draw_in_bounds; lia.
Qed.

(** C9: every position [_generate_position] returns lies on the grid,
    [0 ≤ y < height] and [0 ≤ x < width].  (A position is returned only when
    [height ≥ 1] and [width ≥ 1]: on an empty range [randint] raises.) *)
Theorem _generate_position_in_bounds env frames positions height width s p s' :
  _generate_position env frames positions height width s = (Return p, s') ->
  0 <= y p < height /\ 0 <= x p < width.
Proof.
  intros H.
  apply _generate_position_Return_inv in H as (Hh & Hw & _ & k & _ & -> & _).
  by apply draw_in_bounds.
Qed.

Lemma _generate_position_in_bounds_witness :
  _generate_position env_counting 5 [{| y := 0; x := 0 |}] 2 3 initial_state
    = (Return {| y := 1; x := 1 |}, with_rand_calls 4 initial_state)
  /\ 0 <= 1 < 2 /\ 0 <= 1 < 3.
Proof.
  assert (_generate_position env_counting 5 [{| y := 0; x := 0 |}] 2 3 initial_state
          = (Return {| y := 1; x := 1 |}, with_rand_calls 4 initial_state)) as H.
  { vm_compute. reflexivity. }
  split; [exact H |].
  exact (_generate_position_in_bounds env_counting 5 [{| y := 0; x := 0 |}] 2 3
           initial_state {| y := 1; x := 1 |} _ H).
Defined.

(** *** Uniqueness of the initial positions *)

Lemma nth_cell_cell_index height width p :
  1 <= width -> in_bounds height width p -> nth_cell width (cell_index width p) = p.
Proof.
  intros Hw [Hy Hx]. destruct p as [py px]. unfold nth_cell, cell_index; cbn [y x] in *.
  f_equal.
  - rewrite Z.div_add_l by lia. rewrite Z.div_small by lia. lia.
  - rewrite Z.add_comm, Z.mod_add by lia. apply Z.mod_small. lia.
Qed.

(** A set that does not cover its grid has a grid with cells. *)
Lemma not_covers_grid height width (positions : list Position) :
  ~ covers height width positions -> 1 <= height /\ 1 <= width.
Proof.
  intros Hn.
  destruct (decide (1 <= height /\ 1 <= width)) as [H | H]; [exact H |].
  exfalso. apply Hn. intros p [Hy Hx]. lia.
Qed.

(** What the invocation leaves when it returns: the list it built has no
    two coinciding positions and as many positions as asked for, and each
    of them holds one agent. *)
Lemma _invoke_initial_population_Return_unique env frames height width n s
    universe' s' :
  0 <= n ->
  _invoke_initial_population env frames (empty_universe height width)
    height width n random s = (Return universe', s') ->
  exists positions s1,
    generate_positions env frames (Z.to_nat n) [] height width s
      = (Return positions, s1)
    /\ NoDup positions
    /\ Z.of_nat (length positions) = n
    /\ occupied universe' = n.
Proof.
  intros Hn H. unfold _invoke_initial_population in H. bind_inv H.
  match goal with
  | Hgen : generate_positions _ _ _ _ _ _ _ = (Return ?l, ?s1) |- _ =>
      rename l into positions; rename s1 into s1'; rename Hgen into Hgen'
  end.
  destruct (generate_positions_Return_inv env _ _ _ _ _ _ _ _ Hgen')
    as (Hnd & Hb & Hlen); [constructor | constructor |].
  cbn [length Nat.add] in Hlen.
  destruct (invoke_agents_Return (empty_universe height width) n positions s1')
    as (u' & Hinv & _ & _ & Hsize); [done | done | |].
  { intros p _. apply lookup_empty. }
  rewrite Hinv in H. inversion H; subst u'; clear H.
  exists positions, s1'. split; [done |]. split; [done |]. split; [lia |].
  unfold occupied. rewrite Hsize. cbn [empty_universe space].
  rewrite map_size_empty. lia.
Qed.

(** The invocation returns when each of its searches meets a free draw
    before the stack is used up. *)
Lemma _invoke_initial_population_searches env frames height width n s :
  1 <= height -> 1 <= width ->
  searches_succeed env frames height width (Z.to_nat n) [] (rand_calls s) ->
  exists universe' s',
    _invoke_initial_population env frames (empty_universe height width)
      height width n random s = (Return universe', s').
Proof.
  intros Hh Hw Hsearch.
  destruct (generate_positions_searches env frames (Z.to_nat n) [] height width s
              Hh Hw Hsearch) as (positions & s1 & Hgen).
  destruct (generate_positions_Return_inv env _ _ _ _ _ _ _ _ Hgen)
    as (Hnd & Hb & _); [constructor | constructor |].
  destruct (invoke_agents_Return (empty_universe height width) n positions s1)
    as (u' & Hinv & _); [done | done | |].
  { intros p _. apply lookup_empty. }
  exists u', (with_agent_count (agent_count s1 + length positions) s1).
  unfold _invoke_initial_population. by rewrite (bind_Return _ _ _ _ _ Hgen).
Qed.

(** C6, as the code has it.  Whenever [_generate_position] returns, the
    position is not among those already chosen.  For a set that does not
    cover the grid it returns such a position provided one of the draws it
    makes before the stack is used up is free, and raises [RecursionError]
    when all of them collide.  Consequently, whenever
    [_invoke_initial_population] returns, the position list it built has no
    two coinciding positions and the number of occupied cells is
    [initial_population_count]; and it does return when each of its searches
    meets a free draw in time. *)
Theorem initial_positions_unique env frames height width :
  (forall positions s p s',
     _generate_position env frames positions height width s = (Return p, s') ->
     p ∉ positions)
  /\ (forall positions s,
        ~ covers height width positions ->
        ((exists k, (k < frames)%nat
                    /\ draw env height width (rand_calls s + 2 * k) ∉ positions) ->
         exists p s',
           _generate_position env frames positions height width s = (Return p, s')
           /\ p ∉ positions)
        /\ ((forall k, (k < frames)%nat ->
               draw env height width (rand_calls s + 2 * k) ∈ positions) ->
            fst (_generate_position env frames positions height width s)
              = Raise RecursionError))
  /\ (forall initial_population_count s universe' s',
        0 <= initial_population_count ->
        _invoke_initial_population env frames (empty_universe height width)
          height width initial_population_count random s = (Return universe', s') ->
        exists positions s1,
          generate_positions env frames (Z.to_nat initial_population_count) []
            height width s = (Return positions, s1)
          /\ NoDup positions
          /\ Z.of_nat (length positions) = initial_population_count
          /\ occupied universe' = initial_population_count)
  /\ (forall initial_population_count s,
        1 <= height -> 1 <= width ->
        searches_succeed env frames height width
          (Z.to_nat initial_population_count) [] (rand_calls s) ->
        exists universe' s',
          _invoke_initial_population env frames (empty_universe height width)
            height width initial_population_count random s
            = (Return universe', s')).
Proof.
  split; [| split; [| split]].
  - intros positions s p s' H.
    by apply _generate_position_Return_inv in H as (_ & _ & ? & _).
  - intros positions s Hnc.
    destruct (not_covers_grid height width positions Hnc) as [Hh Hw]. split.
    + intros Hfree.
      destruct (_generate_position_total env frames positions height width s
                  Hh Hw Hfree) as (p & s' & Hp).
      exists p, s'. split; [done |].
      by apply _generate_position_Return_inv in Hp as (_ & _ & ? & _).
    + intros Hall.
      by rewrite (_generate_position_collisions env frames positions height width s
                    Hh Hw Hall).
  - intros n s universe' s' Hn H.
    by apply (_invoke_initial_population_Return_unique env frames height width n s
                universe' s').
  - intros n s Hh Hw Hsearch.
    by apply _invoke_initial_population_searches.
Qed.

(** The recorded run on the grid of 3 × 4 with five agents: the third
    search collides once and the fourth twice before a free draw. *)
Lemma initial_positions_unique_witness :
  exists universe' s' positions s1,
    _invoke_initial_population env_recorded default_recursion_limit
      (empty_universe 3 4) 3 4 5 random initial_state = (Return universe', s')
    /\ generate_positions env_recorded default_recursion_limit (Z.to_nat 5) [] 3 4
         initial_state = (Return positions, s1)
    /\ NoDup positions
    /\ Z.of_nat (length positions) = 5
    /\ occupied universe' = 5.
Proof.
  assert (searches_succeed env_recorded default_recursion_limit 3 4 (Z.to_nat 5) []
            (rand_calls initial_state)) as Hsearch.
  { assert (exists positions s1,
              generate_positions env_recorded default_recursion_limit (Z.to_nat 5) []
                3 4 initial_state = (Return positions, s1)) as (positions & s1 & Hgen).
    { eexists _, _. vm_compute. reflexivity. }
    exact (generate_positions_Return_searches env_recorded _ _ _ _ _ _ _ _ Hgen). }
  destruct (initial_positions_unique env_recorded default_recursion_limit 3 4)
    as (_ & _ & Hunique & Hreturns).
  destruct (Hreturns 5 initial_state ltac:(lia) ltac:(lia) Hsearch)
    as (universe' & s' & Hinv).
  destruct (Hunique 5 initial_state universe' s' ltac:(lia) Hinv)
    as (positions & s1 & Hgen & Hnd & Hlen & Hocc).
  exists universe', s', positions, s1. done.
Defined.

(** C6, as the specification words it, does not hold for every call: on the
    grid of two cells with one of them taken, a random source that keeps
    drawing the taken cell makes the generator use up the interpreter's
    stack, and no position is returned. *)
Lemma _generate_position_may_not_return :
  ~ covers 1 2 [{| y := 0; x := 0 |}]
  /\ _generate_position (env_colliding default_recursion_limit)
       default_recursion_limit [{| y := 0; x := 0 |}] 1 2 initial_state
     = (Raise RecursionError, with_rand_calls 2000 initial_state).
Proof.
  split.
  - intros Hcov. specialize (Hcov {| y := 0; x := 1 |}).
    assert (in_bounds 1 2 {| y := 0; x := 1 |}) as Hb by (unfold in_bounds; simpl; lia).
    apply Hcov in Hb. by apply list_elem_of_singleton in Hb.
  - apply (_generate_position_collisions (env_colliding default_recursion_limit)
             default_recursion_limit [{| y := 0; x := 0 |}] 1 2 initial_state);
      [lia | lia |].
    intros j Hj. cbn [rand_calls initial_state Nat.add].
    rewrite draw_env_colliding.
    destruct (j <? default_recursion_limit)%nat eqn:E;
      [by left | apply Nat.ltb_ge in E; lia].
Qed.

(** ** The run phase *)

Lemma range_down_nil n : n <= 0 -> range_down n = [].
Proof. intros H. unfold range_down. by replace (Z.to_nat n) with 0%nat by lia. Qed.

Lemma length_range_down n : Z.of_nat (length (range_down n)) = Z.max n 0.
Proof. unfold range_down. rewrite length_fmap, length_seq. lia. Qed.

(** C4, as the code has it: [simulation_duration] is
    [min(max_total_duration − elapsed whole seconds, max_simulation_duration)]
    without a clamp, the elapsed seconds being what [max(0, ·)] is applied
    to; it is negative exactly when the elapsed seconds exceed
    [max_total_duration] or [max_simulation_duration] is negative.  What is
    clamped at 0 is the number of ticks of the run loop. *)
Theorem simulation_duration_not_clamped max_total_duration max_simulation_duration
    start_running :
  0 <= start_running ->
  simulation_duration max_total_duration max_simulation_duration start_running
    = Z.min (max_total_duration - whole_seconds start_running) max_simulation_duration
  /\ (simulation_duration max_total_duration max_simulation_duration start_running < 0
      <-> max_total_duration < whole_seconds start_running
          \/ max_simulation_duration < 0)
  /\ Z.of_nat (length (range_down
       (simulation_duration max_total_duration max_simulation_duration start_running)))
     = Z.max (Z.min (max_total_duration - whole_seconds start_running)
                max_simulation_duration) 0.
Proof.
  intros Hs.
  assert (0 <= whole_seconds start_running) as Hw.
  { unfold whole_seconds. apply Z.quot_pos; lia. }
  assert (simulation_duration max_total_duration max_simulation_duration start_running
          = Z.min (max_total_duration - whole_seconds start_running)
              max_simulation_duration) as E.
  { unfold simulation_duration. f_equal. lia. }
  split; [exact E |]. split.
  - rewrite E. lia.
  - by rewrite length_range_down, E.
Qed.

Lemma simulation_duration_not_clamped_witness :
  simulation_duration 1 5 3000000000 = Z.min (1 - whole_seconds 3000000000) 5
  /\ (simulation_duration 1 5 3000000000 < 0
      <-> 1 < whole_seconds 3000000000 \/ 5 < 0)
  /\ Z.of_nat (length (range_down (simulation_duration 1 5 3000000000)))
     = Z.max (Z.min (1 - whole_seconds 3000000000) 5) 0.
Proof.
  apply (simulation_duration_not_clamped 1 5 3000000000). lia.
Defined.

(** C4, as the specification words it, does not hold: three seconds into a
    run with [max_total_duration = 1] the computed [simulation_duration] is
    [-2], not the clamped value [0]. *)
Lemma simulation_duration_negative :
  simulation_duration 1 5 3000000000 = -2
  /\ Z.max (Z.min (1 - whole_seconds 3000000000) 5) 0 = 0.
Proof. split; reflexivity. Qed.

(** C10: when [simulation_duration ≤ 0] at the start of the run phase, the
    loop makes no iteration: the phase reads the clock twice, for
    [start_running] and for [timings["run"]], reads no thread count, sleeps
    never and leaves [early_stop] unset; the stop phase that follows sets
    the freeze flag. *)
Theorem experiment_run_no_tick env non_agents_threads max_total_duration
    max_simulation_duration s :
  simulation_duration max_total_duration max_simulation_duration
    (time_ns env (clock_calls s)) <= 0 ->
  experiment_run env non_agents_threads max_total_duration max_simulation_duration s
    = (Return (false, time_ns env (S (clock_calls s))),
       with_clock_calls (2 + clock_calls s) s)
  /\ slept (with_clock_calls (2 + clock_calls s) s) = slept s
  /\ count_calls (with_clock_calls (2 + clock_calls s) s) = count_calls s
  /\ forall fuel universe universe' s',
       experiment_stop env fuel universe non_agents_threads
         (with_clock_calls (2 + clock_calls s) s) = (Return universe', s') ->
       freeze universe' = true.
Proof.
  intros H. split; [| split; [done | split; [done |]]].
  - unfold experiment_run. unfold bind at 1. unfold get_time at 1.
    rewrite (range_down_nil _ H). cbn [run_loop]. unfold bind at 1, ret at 1.
    unfold bind at 1. unfold get_time at 1. unfold ret.
    reflexivity.
  - intros fuel universe universe' s' Hstop. unfold experiment_stop in Hstop.
    bind_inv Hstop. bind_inv Hstop. inversion Hstop; subst. reflexivity.
Qed.

Lemma experiment_run_no_tick_witness :
  experiment_run env_counting 1 1 5 (with_clock_calls 30 initial_state)
    = (Return (false, 3100000000), with_clock_calls 32 initial_state).
Proof.
  apply (experiment_run_no_tick env_counting 1 1 5 (with_clock_calls 30 initial_state)).
  vm_compute. discriminate.
Defined.

(** C5: called with [initial_population_count > height × width],
    [experiment] fails on its entry assertion and has done nothing by then:
    no universe is constructed, no position is drawn, no agent is created,
    no clock or thread count is read. *)
Theorem experiment_invalid_configuration env frames fuel height width
    initial_population_count max_total_duration max_simulation_duration s :
  height * width < initial_population_count ->
  experiment env frames fuel height width initial_population_count
    max_total_duration max_simulation_duration s = (Raise AssertionError, s).
Proof.
  intros H. unfold experiment. unfold bind at 1. unfold py_assert.
  destruct (initial_population_count <=? height * width) eqn:E; [lia | done].
Qed.

Lemma experiment_invalid_configuration_witness :
  experiment env_counting default_recursion_limit 10 2 2 5 10 3 initial_state
    = (Raise AssertionError, initial_state).
Proof.
  apply (experiment_invalid_configuration env_counting default_recursion_limit
           10 2 2 5 10 3 initial_state).
  lia.
Defined.

(** ** Timings *)

Section Clock.

Variable env : Env.

(** A computation never takes back a reading of the clock. *)
Definition clock_le {A} (m : M A) : Prop :=
  forall s o s', m s = (o, s') -> (clock_calls s <= clock_calls s')%nat.

Lemma clock_le_ret {A} (a : A) : clock_le (ret a).
Proof. intros s o s' [= <- <-]. lia. Qed.

Lemma clock_le_raise {A} e : clock_le (@raise A e).
Proof. intros s o s' [= <- <-]. lia. Qed.

Lemma clock_le_bind {A B} (m : M A) (k : A -> M B) :
  clock_le m -> (forall a, clock_le (k a)) -> clock_le (bind m k).
Proof.
  intros Hm Hk s o s' H. unfold bind in H.
  destruct (m s) as [[a | e |] s1] eqn:E; specialize (Hm _ _ _ E).
  - specialize (Hk a _ _ _ H). lia.
  - inversion H; subst. lia.
  - inversion H; subst. lia.
Qed.

Lemma clock_le_randint a b : clock_le (randint env a b).
Proof.
  intros s o s'. unfold randint. destruct (b <? a); intros [= <- <-]; simpl; lia.
Qed.

Lemma clock_le_get_time : clock_le (get_time env).
Proof. intros s o s' [= <- <-]. simpl. lia. Qed.

Lemma clock_le_threading_active_count : clock_le (threading_active_count env).
Proof. intros s o s' [= <- <-]. simpl. lia. Qed.

Lemma clock_le_sleep d : clock_le (sleep d).
Proof. intros s o s' [= <- <-]. simpl. lia. Qed.

Lemma clock_le_py_assert c : clock_le (py_assert c).
Proof. destruct c; [apply clock_le_ret | apply clock_le_raise]. Qed.

Lemma clock_le_Universe_init height width : clock_le (Universe_init height width).
Proof. intros s o s' [= <- <-]. simpl. lia. Qed.

Lemma clock_le_Agent_init universe pos generation parents start_barrier :
  clock_le (Agent_init universe pos generation parents start_barrier).
Proof.
  intros s o s'. unfold Agent_init.
  destruct (negb _); [intros [= <- <-]; lia |].
  destruct (space universe !! cell pos); intros [= <- <-]; simpl; lia.
Qed.

Create HintDb clock.
#[local] Hint Resolve clock_le_ret clock_le_raise clock_le_randint clock_le_get_time
  clock_le_threading_active_count clock_le_sleep clock_le_py_assert
  clock_le_Universe_init clock_le_Agent_init : clock.

Ltac clock_le_step :=
  repeat first
    [ apply clock_le_bind; [| intros ?]
    | progress auto with clock ].

Lemma clock_le__generate_position frames positions height width :
  clock_le (_generate_position env frames positions height width).
Proof.
  induction frames as [| frames IH]; cbn [_generate_position]; clock_le_step.
  destruct (decide _); auto with clock.
Qed.
#[local] Hint Resolve clock_le__generate_position : clock.

Lemma clock_le_generate_positions frames count positions height width :
  clock_le (generate_positions env frames count positions height width).
Proof.
  revert positions.
  induction count as [| count IH]; intros positions; cbn [generate_positions];
    clock_le_step.
Qed.
#[local] Hint Resolve clock_le_generate_positions : clock.

Lemma clock_le_invoke_agents universe start_barrier positions :
  clock_le (invoke_agents universe start_barrier positions).
Proof.
  revert universe.
  induction positions as [| pos rest IH]; intros universe; cbn [invoke_agents];
    clock_le_step.
Qed.
#[local] Hint Resolve clock_le_invoke_agents : clock.

Lemma clock_le__invoke_initial_population frames universe height width n d :
  clock_le (_invoke_initial_population env frames universe height width n d).
Proof. unfold _invoke_initial_population. destruct d. clock_le_step. Qed.
#[local] Hint Resolve clock_le__invoke_initial_population : clock.

Lemma clock_le_run_loop non_agents_threads start_running sd ticks :
  clock_le (run_loop env non_agents_threads start_running sd ticks).
Proof.
  induction ticks as [| i ticks IH]; cbn [run_loop]; clock_le_step.
  destruct (_ <=? _); clock_le_step.
Qed.
#[local] Hint Resolve clock_le_run_loop : clock.

Lemma clock_le_stop_loop fuel non_agents_threads active_agents :
  clock_le (stop_loop env fuel non_agents_threads active_agents).
Proof.
  revert active_agents.
  induction fuel as [| fuel IH]; intros active_agents; cbn [stop_loop];
    destruct (0 <? active_agents); clock_le_step.
  intros s o s' [= <- <-]. lia.
Qed.
#[local] Hint Resolve clock_le_stop_loop : clock.

Lemma clock_le_experiment_stop fuel universe non_agents_threads :
  clock_le (experiment_stop env fuel universe non_agents_threads).
Proof. unfold experiment_stop. clock_le_step. Qed.

Lemma get_time_Return_inv s t s' :
  get_time env s = (Return t, s') ->
  t = time_ns env (clock_calls s) /\ clock_calls s' = S (clock_calls s).
Proof. by intros [= <- <-]. Qed.

Lemma experiment_run_Return_inv non_agents_threads max_total_duration
    max_simulation_duration s r s' :
  experiment_run env non_agents_threads max_total_duration max_simulation_duration s
    = (Return r, s') ->
  exists k, (clock_calls s < k)%nat /\ snd r = time_ns env k /\ clock_calls s' = S k.
Proof.
  unfold experiment_run. intros H.
  bind_inv H. apply get_time_Return_inv in Hm as [_ Hc0].
  bind_inv H. apply clock_le_run_loop in Hm.
  bind_inv H. apply get_time_Return_inv in Hm0 as [-> Hc1].
  inversion H; subst. exists (clock_calls s1). cbn [snd]. repeat split; lia.
Qed.

Hypothesis time_ns_nonneg : forall k, 0 <= time_ns env k.
Hypothesis time_ns_step : forall k, time_ns env k <= time_ns env (S k).

Lemma time_ns_mono i j : (i <= j)%nat -> time_ns env i <= time_ns env j.
Proof.
  induction 1 as [| j _ IH]; [lia |]. pose proof (time_ns_step j). lia.
Qed.

Lemma experiment_setup_Return_inv frames height width n s universe
    non_agents_threads timings s' :
  experiment_setup env frames height width n s
    = (Return (universe, non_agents_threads, timings), s') ->
  exists k0 k1 k2,
    (k0 <= k1 <= k2)%nat /\ (k2 < clock_calls s')%nat
    /\ timings = [("init_universe"%string, time_ns env k0);
                  ("invoke_initial_population"%string, time_ns env k1);
                  ("start_initial_population"%string, time_ns env k2)].
Proof.
  unfold experiment_setup. intros H.
  bind_inv H. inversion Hm; subst; clear Hm.
  bind_inv H. apply get_time_Return_inv in Hm as [-> Hc0].
  bind_inv H. apply clock_le__invoke_initial_population in Hm.
  bind_inv H. apply clock_le_py_assert in Hm0.
  bind_inv H. apply get_time_Return_inv in Hm1 as [-> Hc2].
  bind_inv H. apply clock_le_threading_active_count in Hm1.
  bind_inv H. apply get_time_Return_inv in Hm2 as [-> Hc3].
  inversion H; subst.
  eexists _, _, _. split; [| split; [| reflexivity]].
  - cbn [clock_calls with_universes] in *. lia.
  - lia.
Qed.

(** C8: with a clock that is monotonic and starts at its origin, the
    timings of the result bundle are the five readings [init_universe],
    [invoke_initial_population], [start_initial_population], [run], [stop]
    in that order, every one of them non-negative and none smaller than the
    one before it (so [stop ≥ run]); and [stop] is the culmination recorded
    in the universe. *)
Theorem experiment_timings_ordered frames fuel height width initial_population_count
    max_total_duration max_simulation_duration s r s' :
  experiment env frames fuel height width initial_population_count
    max_total_duration max_simulation_duration s = (Return r, s') ->
  exists init_universe invoke_initial_population start_initial_population run stop,
    timings r = [("init_universe"%string, init_universe);
                 ("invoke_initial_population"%string, invoke_initial_population);
                 ("start_initial_population"%string, start_initial_population);
                 ("run"%string, run);
                 ("stop"%string, stop)]
    /\ Forall (fun entry => 0 <= snd entry) (timings r)
    /\ init_universe <= invoke_initial_population
    /\ invoke_initial_population <= start_initial_population
    /\ start_initial_population <= run
    /\ run <= stop
    /\ culmination (universe r) = Some stop.
Proof.
  unfold experiment. intros H.
  bind_inv H. apply clock_le_py_assert in Hm.
  bind_inv H. destruct a0 as [[universe0 non_agents_threads] timings0].
  apply experiment_setup_Return_inv in Hm0 as (k0 & k1 & k2 & Hk & Hk2 & ->).
  bind_inv H. apply experiment_run_Return_inv in Hm0 as (k3 & Hk3 & Hrun & Hc3).
  bind_inv H. apply clock_le_experiment_stop in Hm0.
  bind_inv H. apply get_time_Return_inv in Hm1 as [-> Hc4].
  inversion H; subst; clear H. cbn [timings universe set_culmination culmination].
  rewrite Hrun. cbn [app].
  eexists _, _, _, _, _. split; [reflexivity |].
  split; [repeat constructor; cbn [snd]; apply time_ns_nonneg |].
  repeat split; try (apply time_ns_mono; lia).
Qed.

End Clock.

Lemma experiment_timings_ordered_witness :
  exists r s',
    experiment env_counting default_recursion_limit 10 1 2 2 5 3 initial_state
      = (Return r, s')
    /\ exists init_universe invoke_initial_population start_initial_population run stop,
         timings r = [("init_universe"%string, init_universe);
                      ("invoke_initial_population"%string, invoke_initial_population);
                      ("start_initial_population"%string, start_initial_population);
                      ("run"%string, run);
                      ("stop"%string, stop)]
         /\ Forall (fun entry => 0 <= snd entry) (timings r)
         /\ init_universe <= invoke_initial_population
         /\ invoke_initial_population <= start_initial_population
         /\ start_initial_population <= run
         /\ run <= stop
         /\ culmination (universe r) = Some stop.
Proof.
  destruct (experiment env_counting default_recursion_limit 10 1 2 2 5 3 initial_state)
    as [[r | e |] s'] eqn:E.
  - exists r, s'. split; [reflexivity |].
    apply (experiment_timings_ordered env_counting
             ltac:(intros k; cbn [time_ns env_counting]; lia)
             ltac:(intros k; cbn [time_ns env_counting]; lia)
             default_recursion_limit 10 1 2 2 5 3 initial_state r s' E).
  - exfalso. vm_compute in E. discriminate.
  - exfalso. vm_compute in E. discriminate.
Defined.

(** ** Early stop *)

(** C1: the run phase does stop early when the population has died, but the
    result bundle does not say so.  The two runs [env_extinct] and
    [env_alive] of one configuration come out of the setup alike; the run
    phase of the first leaves its loop at the second tick with [early_stop]
    set, the run phase of the second completes both ticks with [early_stop]
    unset; and [experiment] returns the same dictionary in both. *)
Theorem experiment_result_omits_early_stop :
  experiment_setup env_extinct default_recursion_limit 1 1 1 initial_state
    = experiment_setup env_alive default_recursion_limit 1 1 1 initial_state
  /\ snd (experiment_setup env_extinct default_recursion_limit 1 1 1 initial_state)
     = state_after_setup
  /\ fst (experiment_run env_extinct 1 10 2 state_after_setup)
     = Return (true, 2000500000)
  /\ fst (experiment_run env_alive 1 10 2 state_after_setup)
     = Return (false, 2000500000)
  /\ exists r,
       fst (experiment env_extinct default_recursion_limit 10 1 1 1 10 2 initial_state)
         = Return r
       /\ fst (experiment env_alive default_recursion_limit 10 1 1 1 10 2 initial_state)
         = Return r.
Proof.
  repeat split; try (vm_compute; reflexivity).
  eexists. split; vm_compute; reflexivity.
Qed.

(** * Further properties of the controller *)

(** ** The cohort that [_invoke_initial_population] registers *)

Lemma Agent_init_Return_inv universe pos generation parents start_barrier s
    universe' s' :
  Agent_init universe pos generation parents start_barrier s = (Return universe', s') ->
  in_bounds (u_height universe) (u_width universe) pos
  /\ space universe !! cell pos = None
  /\ s' = with_agent_count (S (agent_count s)) s
  /\ universe' =
       {| u_height := u_height universe; u_width := u_width universe;
          space := <[cell pos := agent_count s]> (space universe);
          population :=
            <[agent_count s :=
                {| id := agent_count s; initial_position := pos;
                   generation := generation; parents := parents;
                   start_barrier := start_barrier; started := false |}]>
              (population universe);
          freeze := freeze universe; culmination := culmination universe |}.
Proof.
  unfold Agent_init.
  destruct ((0 <=? y pos) && (y pos <? u_height universe)
            && (0 <=? x pos) && (x pos <? u_width universe)) eqn:E;
    cbn [negb]; [| discriminate].
  destruct (space universe !! cell pos) eqn:Hfree; [discriminate |].
  intros [= <- <-]. repeat (apply andb_prop in E as [E ?]).
  unfold in_bounds. repeat split; lia.
Qed.

Lemma invoke_agents_cohort universe parties positions s universe' s' :
  invoke_agents universe parties positions s = (Return universe', s') ->
  cohort parties false universe ->
  (forall i, (agent_count s <= i)%nat -> population universe !! i = None) ->
  cohort parties false universe'
  /\ (forall i, (agent_count s' <= i)%nat -> population universe' !! i = None)
  /\ s' = with_agent_count (agent_count s + length positions) s
  /\ size (population universe') = (size (population universe) + length positions)%nat
  /\ size (space universe') = (size (space universe) + length positions)%nat
  /\ u_height universe' = u_height universe /\ u_width universe' = u_width universe
  /\ freeze universe' = freeze universe
  /\ culmination universe' = culmination universe.
Proof.
  revert universe s.
  induction positions as [| pos rest IH]; intros universe s H Hco Hfresh.
  - inversion H; subst. cbn [length].
    split; [done |]. split; [done |]. split; [destruct s'; state_eq |].
    repeat split; lia.
  - cbn [invoke_agents] in H. bind_inv H.
    apply Agent_init_Return_inv in Hm as (Hb & Hfree & -> & ->).
    apply IH in H as (Hco' & Hfresh' & -> & Hpop & Hsp & Hh & Hw & Hfr & Hcu);
      clear IH.
    + cbn [u_height u_width freeze culmination population space] in *.
      split; [done |]. split; [done |]. cbn [length].
      split; [state_eq |].
      rewrite Hpop, Hsp, !map_size_insert_None by (done || apply Hfresh; lia).
      repeat split; (lia || done).
    + intros i a Hia. cbn [population space u_height u_width] in *.
      apply lookup_insert_Some in Hia as [[<- <-] | [Hne Hia]].
      * cbn [id generation parents start_barrier started initial_position].
        rewrite lookup_insert_eq. done.
      * destruct (Hco i a Hia) as (? & ? & ? & ? & ? & Hin & Hsp).
        do 5 (split; [done |]). split; [exact Hin |].
        rewrite lookup_insert_ne; [done |].
        intros Heq. rewrite <- Heq, Hfree in Hsp. discriminate.
    + intros i Hi. cbn [population agent_count with_agent_count] in *.
      rewrite lookup_insert_ne by lia. apply Hfresh. lia.
Qed.

Lemma cohort_empty_universe parties is_started height width :
  cohort parties is_started (empty_universe height width).
Proof. intros i a H. cbn [empty_universe population] in H. by rewrite lookup_empty in H. Qed.

Lemma _invoke_initial_population_Return_inv env frames universe height width n s
    universe' s' :
  _invoke_initial_population env frames universe height width n random s
    = (Return universe', s') ->
  exists positions s1,
    generate_positions env frames (Z.to_nat n) [] height width s = (Return positions, s1)
    /\ invoke_agents universe n positions s1 = (Return universe', s').
Proof.
  unfold _invoke_initial_population. intros H. bind_inv H. by exists a, s0.
Qed.

(** A list of distinct cells of the grid is no longer than the grid. *)
Lemma length_positions_le_grid height width (positions : list Position) :
  1 <= width -> NoDup positions -> Forall (in_bounds height width) positions ->
  Z.of_nat (length positions) <= Z.max 0 (height * width).
Proof.
  intros Hw Hnd Hb.
  assert (cell_index width <$> positions ⊆+ seqZ 0 (height * width)) as Hsub.
  { apply NoDup_submseteq.
    - apply NoDup_fmap_2_strong; [| done].
      intros p q Hp Hq Heq. rewrite Forall_forall in Hb.
      rewrite <- (nth_cell_cell_index height width p Hw (Hb p Hp)).
      rewrite <- (nth_cell_cell_index height width q Hw (Hb q Hq)).
      by rewrite Heq.
    - intros k Hk. apply list_elem_of_fmap in Hk as (p & -> & Hp).
      rewrite Forall_forall in Hb. destruct (Hb p Hp) as [Hy Hx].
      apply elem_of_seqZ. unfold cell_index. nia. }
  apply submseteq_length in Hsub. rewrite length_fmap, length_seqZ in Hsub. lia.
Qed.

(** X1: when [_invoke_initial_population] returns, called on a universe
    fresh from its constructor with [initial_population_count ≥ 1], it has
    registered exactly [initial_population_count] agents: each of generation
    0, without parents, not started, sharing a barrier of
    [initial_population_count] parties, standing on a cell of the grid that
    holds its identity, no two of them on one cell; it has drawn from the
    random source and taken agent identities, and has done nothing else. *)
Theorem _invoke_initial_population_registers_cohort env frames height width
    initial_population_count s universe' s' :
  1 <= initial_population_count ->
  _invoke_initial_population env frames (empty_universe height width) height width
    initial_population_count random s = (Return universe', s') ->
  cohort initial_population_count false universe'
  /\ Z.of_nat (size (population universe')) = initial_population_count
  /\ occupied universe' = initial_population_count
  /\ (forall i j a b,
        population universe' !! i = Some a -> population universe' !! j = Some b ->
        initial_position a = initial_position b -> i = j)
  /\ u_height universe' = height /\ u_width universe' = width
  /\ freeze universe' = false /\ culmination universe' = None
  /\ initial_population_count <= height * width
  /\ exists draws,
       s' = with_agent_count (agent_count s + Z.to_nat initial_population_count)
              (with_rand_calls (rand_calls s + draws) s).
Proof.
  intros Hn H.
  apply _invoke_initial_population_Return_inv in H as (positions & s1 & Hgen & Hinv).
  destruct (generate_positions_Return_inv env _ _ _ _ _ _ _ _ Hgen)
    as (Hnd & Hb & Hlen); [constructor | constructor |].
  cbn [length Nat.add] in Hlen.
  assert (1 <= width) as Hw.
  { destruct (Z.to_nat initial_population_count) as [| count] eqn:E; [lia |].
    cbn [generate_positions] in Hgen. bind_inv Hgen.
    by apply _generate_position_Return_inv in Hm as (_ & ? & _). }
  assert (exists draws, s1 = with_rand_calls (rand_calls s + draws) s) as [draws ->].
  { clear Hinv Hnd Hb Hlen. revert Hgen. generalize (@nil Position).
    generalize (Z.to_nat initial_population_count). intros count. revert s.
    induction count as [| count IH]; intros s l Hgen.
    - inversion Hgen; subst. exists 0%nat. destruct s1. state_eq.
    - cbn [generate_positions] in Hgen. bind_inv Hgen.
      apply _generate_position_Return_inv in Hm as (_ & _ & _ & k & _ & _ & -> & _).
      apply IH in Hgen as [draws ->]. exists (2 * S k + draws)%nat. state_eq. }
  apply invoke_agents_cohort in Hinv
    as (Hco & _ & -> & Hpop & Hsp & Hh & Hw' & Hfr & Hcu).
  - cbn [empty_universe population space u_height u_width freeze culmination] in *.
    rewrite map_size_empty in Hpop. rewrite map_size_empty in Hsp.
    pose proof (length_positions_le_grid height width positions Hw Hnd Hb).
    split; [done |]. split; [lia |]. split; [unfold occupied; lia |].
    split.
    { intros i j a b Ha Hb' Heq.
      destruct (Hco i a Ha) as (_ & _ & _ & _ & _ & _ & Hi).
      destruct (Hco j b Hb') as (_ & _ & _ & _ & _ & _ & Hj).
      rewrite Heq, Hj in Hi. by inversion Hi. }
    do 4 (split; [done |]). split; [lia |].
    exists draws. rewrite Hlen. state_eq.
  - apply cohort_empty_universe.
  - intros i _. apply lookup_empty.
Qed.

Lemma _invoke_initial_population_registers_cohort_witness :
  exists universe' s',
    _invoke_initial_population env_counting 2 (empty_universe 1 2) 1 2 2 random
      initial_state = (Return universe', s')
    /\ cohort 2 false universe'
    /\ occupied universe' = 2.
Proof.
  destruct (_invoke_initial_population env_counting 2 (empty_universe 1 2) 1 2 2
              random initial_state) as [[u | e |] s'] eqn:E.
  - exists u, s'. split; [reflexivity |].
    pose proof (_invoke_initial_population_registers_cohort env_counting 2 1 2 2
                  initial_state u s' ltac:(lia) E) as (Hco & _ & Hocc & _).
    by split.
  - exfalso. vm_compute in E. discriminate.
  - exfalso. vm_compute in E. discriminate.
Defined.

(** ** The generator: outcomes and footprint *)

Lemma _generate_position_outcome env frames positions height width s :
  1 <= height -> 1 <= width ->
  (exists p s', _generate_position env frames positions height width s = (Return p, s'))
  \/ (exists s', _generate_position env frames positions height width s
                   = (Raise RecursionError, s')).
Proof.
  intros Hh Hw. revert s. induction frames as [| frames IH]; intros s.
  - right. by exists s.
  - rewrite _generate_position_step by done.
    destruct (decide _); [apply IH | left; eauto].
Qed.

Lemma generate_positions_outcome env frames count positions height width s :
  1 <= height -> 1 <= width ->
  (exists l s', generate_positions env frames count positions height width s
                  = (Return l, s'))
  \/ (exists s', generate_positions env frames count positions height width s
                   = (Raise RecursionError, s')).
Proof.
  intros Hh Hw. revert positions s.
  induction count as [| count IH]; intros positions s.
  - left. by exists positions, s.
  - cbn [generate_positions].
    destruct (_generate_position_outcome env frames positions height width s Hh Hw)
      as [(p & s1 & Hp) | (s1 & Hp)].
    + rewrite (bind_Return _ _ _ _ _ Hp). apply IH.
    + right. exists s1. by rewrite (bind_Raise _ _ _ _ _ Hp).
Qed.

Lemma _generate_position_footprint env frames positions height width s o s' :
  _generate_position env frames positions height width s = (o, s') ->
  exists draws, (draws <= 2 * frames)%nat
                /\ s' = with_rand_calls (rand_calls s + draws) s.
Proof.
  revert s. induction frames as [| frames IH]; intros s H.
  - inversion H; subst. exists 0%nat. split; [lia |]. destruct s'. state_eq.
  - cbn [_generate_position] in H. unfold bind at 1 in H. unfold randint at 1 in H.
    destruct (height - 1 <? 0).
    { inversion H; subst. exists 0%nat. split; [lia |]. destruct s'. state_eq. }
    unfold bind at 1 in H. unfold randint at 1 in H.
    destruct (width - 1 <? 0).
    { inversion H; subst. exists 1%nat. split; [lia |]. state_eq. }
    destruct (decide _).
    + inversion H; subst. exists 2%nat. split; [lia |]. state_eq.
    + apply IH in H as (draws & Hd & ->). exists (2 + draws)%nat.
      split; [lia |]. state_eq.
Qed.

Lemma generate_positions_footprint env frames count positions height width s o s' :
  generate_positions env frames count positions height width s = (o, s') ->
  exists draws, (draws <= 2 * frames * count)%nat
                /\ s' = with_rand_calls (rand_calls s + draws) s.
Proof.
  revert positions s. induction count as [| count IH]; intros positions s H.
  - inversion H; subst. exists 0%nat. split; [lia |]. destruct s'. state_eq.
  - cbn [generate_positions] in H. unfold bind at 1 in H.
    destruct (_generate_position env frames positions height width s)
      as [[p | e |] s1] eqn:E;
      apply _generate_position_footprint in E as (d1 & Hd1 & ->).
    + apply IH in H as (d2 & Hd2 & ->). exists (d1 + d2)%nat. split; [lia |]. state_eq.
    + inversion H; subst. exists d1. split; [lia | done].
    + inversion H; subst. exists d1. split; [lia | done].
Qed.

(** X2: whatever its outcome, an evaluation of [_generate_position] that
    is allowed [frames] activations calls [randint] at most [2 * frames]
    times and has no other effect: it reads no clock and no thread count,
    creates no agent and no universe, and does not sleep. *)
Theorem _generate_position_only_draws env frames positions height width s o s' :
  _generate_position env frames positions height width s = (o, s') ->
  (rand_calls s <= rand_calls s' <= rand_calls s + 2 * frames)%nat
  /\ clock_calls s' = clock_calls s /\ count_calls s' = count_calls s
  /\ agent_count s' = agent_count s /\ universes s' = universes s
  /\ slept s' = slept s.
Proof.
  intros H. apply _generate_position_footprint in H as (draws & Hd & ->).
  cbn [rand_calls clock_calls count_calls agent_count universes slept with_rand_calls].
  repeat split; lia.
Qed.

Lemma _generate_position_only_draws_witness :
  (rand_calls initial_state
     <= rand_calls (snd (_generate_position env_counting 5 [{| y := 0; x := 0 |}] 2 3
                           initial_state))
     <= rand_calls initial_state + 2 * 5)%nat.
Proof.
  exact (proj1 (_generate_position_only_draws env_counting 5 [{| y := 0; x := 0 |}]
                  2 3 initial_state _ _ (surjective_pairing _))).
Defined.

(** X3: on a grid without rows or without columns [_generate_position]
    returns no position: [randint] is called on an empty range and raises
    [ValueError], at the first draw when [height < 1], at the second when
    only [width < 1]. *)
Theorem _generate_position_empty_grid env frames positions height width s :
  height < 1 \/ width < 1 ->
  _generate_position env (S frames) positions height width s =
    (Raise ValueError,
     if height <? 1 then s else with_rand_calls (S (rand_calls s)) s).
Proof.
  intros H. cbn [_generate_position]. unfold bind at 1. unfold randint at 1.
  destruct (height <? 1) eqn:Eh.
  - assert ((height - 1 <? 0) = true) as -> by lia. done.
  - assert ((height - 1 <? 0) = false) as -> by lia.
    unfold bind at 1. unfold randint at 1.
    assert ((width - 1 <? 0) = true) as -> by lia. done.
Qed.

Lemma _generate_position_empty_grid_witness :
  _generate_position env_counting default_recursion_limit [] 3 0 initial_state
    = (Raise ValueError, with_rand_calls 1 initial_state).
Proof.
  apply (_generate_position_empty_grid env_counting 999 [] 3 0 initial_state). lia.
Defined.

(** X4: asked for more agents than the grid has cells,
    [_invoke_initial_population] cannot succeed, whatever the random source:
    position generation ends in [RecursionError], and no agent has been
    created by then. *)
Theorem _invoke_initial_population_overfull env frames universe height width
    initial_population_count s :
  1 <= height -> 1 <= width -> height * width < initial_population_count ->
  exists s',
    _invoke_initial_population env frames universe height width
      initial_population_count random s = (Raise RecursionError, s')
    /\ agent_count s' = agent_count s.
Proof.
  intros Hh Hw Hn. unfold _invoke_initial_population.
  destruct (generate_positions_outcome env frames (Z.to_nat initial_population_count)
              [] height width s Hh Hw) as [(l & s1 & Hgen) | (s1 & Hgen)].
  - exfalso.
    destruct (generate_positions_Return_inv env _ _ _ _ _ _ _ _ Hgen)
      as (Hnd & Hb & Hlen); [constructor | constructor |].
    pose proof (length_positions_le_grid height width l Hw Hnd Hb).
    cbn [length] in Hlen. lia.
  - exists s1. rewrite (bind_Raise _ _ _ _ _ Hgen). split; [done |].
    by apply generate_positions_footprint in Hgen as (draws & _ & ->).
Qed.

Lemma _invoke_initial_population_overfull_witness :
  exists s',
    _invoke_initial_population env_counting 50 (empty_universe 1 2) 1 2 3 random
      initial_state = (Raise RecursionError, s')
    /\ agent_count s' = agent_count initial_state.
Proof.
  apply (_invoke_initial_population_overfull env_counting 50 (empty_universe 1 2)
           1 2 3 initial_state); lia.
Defined.

(** ** The run loop, tick by tick *)

Lemma run_loop_cons_alive env non_agents_threads start_running sd i ticks s :
  non_agents_threads < active_count env (count_calls s) ->
  run_loop env non_agents_threads start_running sd (i :: ticks) s =
    run_loop env non_agents_threads start_running sd ticks
      (with_slept
         (slept s ++
            [sleep_duration sd i
               (elapsed_seconds (time_ns env (clock_calls s)) start_running)])
         (with_clock_calls (S (clock_calls s))
            (with_count_calls (S (count_calls s)) s))).
Proof.
  intros H. cbn [run_loop]. unfold bind at 1. unfold threading_active_count at 1.
  destruct (active_count env (count_calls s) <=? non_agents_threads) eqn:E; [lia |].
  unfold bind at 1. unfold get_time at 1. unfold bind at 1. unfold sleep at 1.
  reflexivity.
Qed.

Lemma run_loop_cons_extinct env non_agents_threads start_running sd i ticks s :
  active_count env (count_calls s) <= non_agents_threads ->
  run_loop env non_agents_threads start_running sd (i :: ticks) s =
    (Return true, with_count_calls (S (count_calls s)) s).
Proof.
  intros H. cbn [run_loop]. unfold bind at 1. unfold threading_active_count at 1.
  destruct (active_count env (count_calls s) <=? non_agents_threads) eqn:E; [done | lia].
Qed.

Lemma run_loop_all_alive env non_agents_threads start_running sd ticks s :
  (forall j, (j < length ticks)%nat ->
     non_agents_threads < active_count env (count_calls s + j)) ->
  run_loop env non_agents_threads start_running sd ticks s =
    (Return false,
     with_slept (slept s ++ tick_sleeps env start_running sd (clock_calls s) ticks)
       (with_clock_calls (clock_calls s + length ticks)
          (with_count_calls (count_calls s + length ticks) s))).
Proof.
  revert s. induction ticks as [| i ticks IH]; intros s Hall.
  - cbn [run_loop tick_sleeps length]. unfold ret. f_equal.
    rewrite app_nil_r. destruct s. state_eq.
  - rewrite run_loop_cons_alive.
    + rewrite IH.
      * f_equal. cbn [tick_sleeps length slept clock_calls count_calls with_slept
                      with_clock_calls with_count_calls].
        rewrite <- app_assoc. cbn [app].
        unfold with_slept, with_clock_calls, with_count_calls;
          cbn [rand_calls clock_calls count_calls agent_count universes slept].
        f_equal; lia.
      * intros j Hj. cbn [count_calls with_slept with_clock_calls with_count_calls].
        replace (S (count_calls s) + j)%nat with (count_calls s + S j)%nat by lia.
        apply Hall. cbn [length]. lia.
    + specialize (Hall 0%nat ltac:(cbn [length]; lia)).
      by replace (count_calls s + 0)%nat with (count_calls s) in Hall by lia.
Qed.

Lemma run_loop_first_extinct env non_agents_threads start_running sd ticks k s :
  (k < length ticks)%nat ->
  (forall j, (j < k)%nat ->
     non_agents_threads < active_count env (count_calls s + j)) ->
  active_count env (count_calls s + k) <= non_agents_threads ->
  run_loop env non_agents_threads start_running sd ticks s =
    (Return true,
     with_slept
       (slept s ++ tick_sleeps env start_running sd (clock_calls s) (take k ticks))
       (with_clock_calls (clock_calls s + k)
          (with_count_calls (count_calls s + S k) s))).
Proof.
  revert s k. induction ticks as [| i ticks IH]; intros s k Hk Halive Hext.
  - cbn [length] in Hk. lia.
  - destruct k as [| k].
    + replace (count_calls s + 0)%nat with (count_calls s) in Hext by lia.
      rewrite run_loop_cons_extinct by done.
      cbn [take tick_sleeps]. f_equal. rewrite app_nil_r. destruct s. state_eq.
    + rewrite run_loop_cons_alive.
      * rewrite (IH _ k).
        -- f_equal. cbn [take tick_sleeps slept clock_calls count_calls with_slept
                         with_clock_calls with_count_calls].
           rewrite <- app_assoc. cbn [app].
           unfold with_slept, with_clock_calls, with_count_calls;
             cbn [rand_calls clock_calls count_calls agent_count universes slept].
           f_equal; lia.
        -- cbn [length] in Hk. lia.
        -- intros j Hj. cbn [count_calls with_slept with_clock_calls with_count_calls].
           replace (S (count_calls s) + j)%nat with (count_calls s + S j)%nat by lia.
           apply Halive. lia.
        -- cbn [count_calls with_slept with_clock_calls with_count_calls].
           by replace (S (count_calls s) + k)%nat with (count_calls s + S k)%nat by lia.
      * specialize (Halive 0%nat ltac:(lia)).
        by replace (count_calls s + 0)%nat with (count_calls s) in Halive by lia.
Qed.

Lemma length_tick_sleeps env start_running sd c ticks :
  length (tick_sleeps env start_running sd c ticks) = length ticks.
Proof.
  revert c. induction ticks as [| i ticks IH]; intros c; cbn [tick_sleeps length];
    [done | by rewrite IH].
Qed.

Lemma length_range_down_nat n : length (range_down n) = Z.to_nat n.
Proof. unfold range_down. by rewrite length_fmap, length_seq. Qed.

Lemma range_down_lookup n k :
  (k < Z.to_nat n)%nat -> range_down n !! k = Some (n - Z.of_nat k).
Proof.
  intros H. unfold range_down. rewrite list_lookup_fmap, lookup_seq_lt by done.
  reflexivity.
Qed.

Lemma experiment_run_unfold env non_agents_threads max_total_duration
    max_simulation_duration s b s' :
  run_loop env non_agents_threads (time_ns env (clock_calls s))
    (simulation_duration max_total_duration max_simulation_duration
       (time_ns env (clock_calls s)))
    (range_down (simulation_duration max_total_duration max_simulation_duration
                   (time_ns env (clock_calls s))))
    (with_clock_calls (S (clock_calls s)) s) = (Return b, s') ->
  experiment_run env non_agents_threads max_total_duration max_simulation_duration s
    = (Return (b, time_ns env (clock_calls s')),
       with_clock_calls (S (clock_calls s')) s').
Proof.
  intros H. unfold experiment_run. unfold bind at 1. unfold get_time at 1.
  rewrite (bind_Return _ _ _ _ _ H). reflexivity.
Qed.

(** X5: the run phase stops at the first tick at which the thread count is
    at or below the baseline.  If that is tick number [k] (from 0) of the
    [simulation_duration] ticks, the phase has slept [k] times, once after
    each tick before it, has counted the threads [k + 1] times, leaves its
    loop with [early_stop] set, and records [timings["run"]] at once. *)
Theorem experiment_run_early_stop env non_agents_threads max_total_duration
    max_simulation_duration s start_running sd k :
  start_running = time_ns env (clock_calls s) ->
  sd = simulation_duration max_total_duration max_simulation_duration start_running ->
  Z.of_nat k < sd ->
  (forall j, (j < k)%nat ->
     non_agents_threads < active_count env (count_calls s + j)) ->
  active_count env (count_calls s + k) <= non_agents_threads ->
  experiment_run env non_agents_threads max_total_duration max_simulation_duration s
    = (Return (true, time_ns env (clock_calls s + 1 + k)),
       with_slept
         (slept s ++
            tick_sleeps env start_running sd (S (clock_calls s))
              (take k (range_down sd)))
         (with_clock_calls (clock_calls s + 2 + k)
            (with_count_calls (count_calls s + S k) s))).
Proof.
  intros -> -> Hk Halive Hext.
  rewrite (experiment_run_unfold env non_agents_threads max_total_duration
             max_simulation_duration s true
             (with_slept
                (slept s ++
                   tick_sleeps env (time_ns env (clock_calls s))
                     (simulation_duration max_total_duration max_simulation_duration
                        (time_ns env (clock_calls s)))
                     (S (clock_calls s))
                     (take k (range_down
                        (simulation_duration max_total_duration
                           max_simulation_duration (time_ns env (clock_calls s))))))
                (with_clock_calls (S (clock_calls s) + k)
                   (with_count_calls (count_calls s + S k) s)))).
  - f_equal.
    + do 3 f_equal. cbn [clock_calls with_slept with_clock_calls]. lia.
    + state_eq.
  - rewrite (run_loop_first_extinct _ _ _ _ _ k).
    + reflexivity.
    + rewrite length_range_down_nat. lia.
    + exact Halive.
    + exact Hext.
Qed.

Lemma experiment_run_early_stop_witness :
  experiment_run env_extinct 1 10 2 state_after_setup
    = (Return (true, 2000500000),
       with_slept
         (slept state_after_setup ++
            tick_sleeps env_extinct 4000 2 4 (take 1 (range_down 2)))
         (with_clock_calls 6 (with_count_calls 3 state_after_setup))).
Proof.
  apply (experiment_run_early_stop env_extinct 1 10 2 state_after_setup 4000 2 1).
  - reflexivity.
  - reflexivity.
  - lia.
  - intros j Hj. replace j with 0%nat by lia. vm_compute. reflexivity.
  - vm_compute. discriminate.
Defined.

(** X6: when at every tick agent threads are still running, the run phase
    completes all [simulation_duration] ticks, sleeping after each of them,
    and leaves [early_stop] unset: one thread count, one clock reading and
    one sleep per tick, then the reading of [timings["run"]]. *)
Theorem experiment_run_completes env non_agents_threads max_total_duration
    max_simulation_duration s start_running sd :
  start_running = time_ns env (clock_calls s) ->
  sd = simulation_duration max_total_duration max_simulation_duration start_running ->
  (forall j, (j < Z.to_nat sd)%nat ->
     non_agents_threads < active_count env (count_calls s + j)) ->
  experiment_run env non_agents_threads max_total_duration max_simulation_duration s
    = (Return (false, time_ns env (clock_calls s + 1 + Z.to_nat sd)),
       with_slept
         (slept s ++
            tick_sleeps env start_running sd (S (clock_calls s)) (range_down sd))
         (with_clock_calls (clock_calls s + 2 + Z.to_nat sd)
            (with_count_calls (count_calls s + Z.to_nat sd) s))).
Proof.
  intros -> -> Halive.
  rewrite (experiment_run_unfold env non_agents_threads max_total_duration
             max_simulation_duration s false
             (with_slept
                (slept s ++
                   tick_sleeps env (time_ns env (clock_calls s))
                     (simulation_duration max_total_duration max_simulation_duration
                        (time_ns env (clock_calls s)))
                     (S (clock_calls s))
                     (range_down
                        (simulation_duration max_total_duration
                           max_simulation_duration (time_ns env (clock_calls s)))))
                (with_clock_calls
                   (S (clock_calls s) + Z.to_nat
                      (simulation_duration max_total_duration
                         max_simulation_duration (time_ns env (clock_calls s))))
                   (with_count_calls
                      (count_calls s + Z.to_nat
                         (simulation_duration max_total_duration
                            max_simulation_duration (time_ns env (clock_calls s))))
                      s)))).
  - f_equal.
    + do 3 f_equal. cbn [clock_calls with_slept with_clock_calls]. lia.
    + state_eq.
  - rewrite run_loop_all_alive.
    + rewrite length_range_down_nat. reflexivity.
    + rewrite length_range_down_nat. exact Halive.
Qed.

Lemma experiment_run_completes_witness :
  experiment_run env_alive 1 10 2 state_after_setup
    = (Return (false, 2000500000),
       with_slept
         (slept state_after_setup ++ tick_sleeps env_alive 4000 2 4 (range_down 2))
         (with_clock_calls 7 (with_count_calls 3 state_after_setup))).
Proof.
  apply (experiment_run_completes env_alive 1 10 2 state_after_setup 4000 2).
  - reflexivity.
  - reflexivity.
  - intros j Hj. change (Z.to_nat 2) with 2%nat in Hj.
    destruct j as [| [| j]]; [vm_compute; reflexivity | vm_compute; reflexivity | lia].
Defined.

Lemma tick_sleeps_nonneg env start_running sd c ticks :
  Forall (fun d => (0 <= d)%Q) (tick_sleeps env start_running sd c ticks).
Proof.
  revert c. induction ticks as [| i ticks IH]; intros c; cbn [tick_sleeps];
    constructor; [apply Q.le_max_r | apply IH].
Qed.

Lemma run_loop_total env non_agents_threads start_running sd ticks s :
  exists (b : bool) (k : nat),
    (k <= length ticks)%nat
    /\ (if b then (k < length ticks)%nat else k = length ticks)
    /\ run_loop env non_agents_threads start_running sd ticks s =
         (Return b,
          with_slept
            (slept s ++ tick_sleeps env start_running sd (clock_calls s) (take k ticks))
            (with_clock_calls (clock_calls s + k)
               (with_count_calls (count_calls s + k + (if b then 1 else 0)) s))).
Proof.
  revert s. induction ticks as [| i ticks IH]; intros s.
  - exists false, 0%nat. split; [done |]. split; [done |].
    cbn [run_loop take tick_sleeps]. unfold ret. f_equal.
    rewrite app_nil_r. destruct s. state_eq.
  - destruct (decide (active_count env (count_calls s) <= non_agents_threads))
      as [Hext | Halive].
    + exists true, 0%nat. cbn [length]. split; [lia |]. split; [lia |].
      rewrite run_loop_cons_extinct by done. cbn [take tick_sleeps].
      f_equal. rewrite app_nil_r. destruct s. state_eq.
    + rewrite run_loop_cons_alive by lia.
      destruct (IH (with_slept
                      (slept s ++
                         [sleep_duration sd i
                            (elapsed_seconds (time_ns env (clock_calls s))
                               start_running)])
                      (with_clock_calls (S (clock_calls s))
                         (with_count_calls (S (count_calls s)) s))))
        as (b & k & Hk & Hb & ->).
      exists b, (S k). cbn [length]. split; [lia |].
      split; [destruct b; lia |].
      f_equal. cbn [take tick_sleeps slept clock_calls count_calls with_slept
                    with_clock_calls with_count_calls].
      rewrite <- app_assoc. cbn [app].
      unfold with_slept, with_clock_calls, with_count_calls;
        cbn [rand_calls clock_calls count_calls agent_count universes slept].
      f_equal; lia.
Qed.

Lemma tick_sleeps_lookup env start_running sd c ticks j d :
  tick_sleeps env start_running sd c ticks !! j = Some d ->
  exists i,
    ticks !! j = Some i
    /\ d = sleep_duration sd i (elapsed_seconds (time_ns env (c + j)) start_running).
Proof.
  revert c j. induction ticks as [| i ticks IH]; intros c j H; [done |].
  destruct j as [| j]; cbn [tick_sleeps] in H.
  - inversion H; subst. exists i. split; [done |]. by rewrite Nat.add_0_r.
  - apply IH in H as (i' & Hi' & ->). exists i'. split; [done |].
    by replace (S c + j)%nat with (c + S j)%nat by lia.
Qed.

(** C7: the run phase returns, and every sleep it has made is that of a
    tick of its loop: the sleep number [j] (from 0) belongs to the tick
    [i = range(simulation_duration, 0, -1)[j]], and its duration is
    [max((simulation_duration − i + 1) − t, 0)], where [t] is the time that
    had elapsed at that tick since the phase started, in seconds: the clock
    reading of the tick less [start_running], the reading that opened the
    phase.  It is never negative. *)
Theorem experiment_run_sleep_durations env non_agents_threads max_total_duration
    max_simulation_duration s :
  exists (early_stop : bool) (timings_run : Z) (naps : list Q) (s' : State),
    experiment_run env non_agents_threads max_total_duration max_simulation_duration s
      = (Return (early_stop, timings_run), s')
    /\ slept s' = slept s ++ naps
    /\ forall j d, naps !! j = Some d ->
         exists (i : Z) (t : Q),
           range_down
             (simulation_duration max_total_duration max_simulation_duration
                (time_ns env (clock_calls s))) !! j = Some i
           /\ t = (inject_Z (time_ns env (clock_calls s + 1 + j)
                             - time_ns env (clock_calls s))
                   / inject_Z 1000000000)%Q
           /\ d = Qmax
                    (inject_Z
                       (simulation_duration max_total_duration
                          max_simulation_duration (time_ns env (clock_calls s))
                        - i + 1) - t)%Q 0%Q
           /\ (0 <= d)%Q.
Proof.
  destruct (run_loop_total env non_agents_threads (time_ns env (clock_calls s))
              (simulation_duration max_total_duration max_simulation_duration
                 (time_ns env (clock_calls s)))
              (range_down (simulation_duration max_total_duration
                 max_simulation_duration (time_ns env (clock_calls s))))
              (with_clock_calls (S (clock_calls s)) s))
    as (b & k & _ & _ & Hrun).
  eexists b, _, _, _.
  split; [exact (experiment_run_unfold _ _ _ _ _ _ _ Hrun) |].
  cbn [slept clock_calls with_slept with_clock_calls with_count_calls].
  split; [reflexivity |].
  intros j d Hd. apply tick_sleeps_lookup in Hd as (i & Hi & ->).
  apply lookup_take_Some in Hi as [Hi _].
  exists i, (elapsed_seconds (time_ns env (clock_calls s + 1 + j))
               (time_ns env (clock_calls s))).
  split; [exact Hi |]. split; [reflexivity |]. split.
  - replace (S (clock_calls s) + j)%nat with (clock_calls s + 1 + j)%nat by lia.
    unfold sleep_duration. change (py_max ?a ?b) with (Qmax a b).
    by replace (1 + simulation_duration max_total_duration max_simulation_duration
                      (time_ns env (clock_calls s)) - i)
      with (simulation_duration max_total_duration max_simulation_duration
              (time_ns env (clock_calls s)) - i + 1) by lia.
  - apply Q.le_max_r.
Qed.

(** X7: the run phase always comes to its end, without an exception: it
    returns [early_stop] and [timings["run"]] after at most
    [max(simulation_duration, 0)] sleeps, none of them of negative length,
    and, when [early_stop] is set, fewer sleeps than that.  It draws no
    random number and creates nothing. *)
Theorem experiment_run_bounded env non_agents_threads max_total_duration
    max_simulation_duration s :
  exists (early_stop : bool) (timings_run : Z) (naps : list Q) (s' : State),
    experiment_run env non_agents_threads max_total_duration max_simulation_duration s
      = (Return (early_stop, timings_run), s')
    /\ slept s' = slept s ++ naps
    /\ Forall (fun d => (0 <= d)%Q) naps
    /\ Z.of_nat (length naps)
       <= Z.max 0 (simulation_duration max_total_duration max_simulation_duration
                     (time_ns env (clock_calls s)))
    /\ (early_stop = true ->
        Z.of_nat (length naps)
        < simulation_duration max_total_duration max_simulation_duration
            (time_ns env (clock_calls s)))
    /\ clock_calls s' = (clock_calls s + 2 + length naps)%nat
    /\ (count_calls s <= count_calls s' <= count_calls s + length naps + 1)%nat
    /\ rand_calls s' = rand_calls s /\ agent_count s' = agent_count s
    /\ universes s' = universes s.
Proof.
  destruct (run_loop_total env non_agents_threads (time_ns env (clock_calls s))
              (simulation_duration max_total_duration max_simulation_duration
                 (time_ns env (clock_calls s)))
              (range_down (simulation_duration max_total_duration
                 max_simulation_duration (time_ns env (clock_calls s))))
              (with_clock_calls (S (clock_calls s)) s))
    as (b & k & Hk & Hb & Hrun).
  rewrite length_range_down_nat in Hk, Hb.
  eexists b, _, _, _.
  split; [exact (experiment_run_unfold _ _ _ _ _ _ _ Hrun) |].
  cbn [slept clock_calls count_calls rand_calls agent_count universes with_slept
       with_clock_calls with_count_calls].
  split; [reflexivity |]. split; [apply tick_sleeps_nonneg |].
  rewrite length_tick_sleeps, length_take, length_range_down_nat.
  split; [lia |]. split; [intros ->; lia |].
  split; [lia |]. split; [destruct b; lia |]. done.
Qed.

(** X8: drift correction.  The sleep of tick number [k] (from 0) of the run
    loop ends [k + 1] seconds after the start of the phase: the time [t]
    already elapsed plus the sleep is [k + 1], unless [t] is past that
    moment, when the sleep is 0. *)
Theorem tick_sleep_ends_on_schedule simulation_duration k i (t : Q) :
  range_down simulation_duration !! k = Some i ->
  (t + sleep_duration simulation_duration i t == Qmax t (inject_Z (Z.of_nat k + 1)))%Q.
Proof.
  intros H.
  assert (i = simulation_duration - Z.of_nat k) as ->.
  { pose proof (lookup_lt_Some _ _ _ H) as Hlt. rewrite length_range_down_nat in Hlt.
    rewrite range_down_lookup in H by done. by inversion H. }
  unfold sleep_duration.
  replace (1 + simulation_duration - (simulation_duration - Z.of_nat k))
    with (Z.of_nat k + 1) by lia.
  change (py_max ?a ?b) with (Qmax a b).
  rewrite <- Q.plus_max_distr_l, Q.max_comm.
  apply Q.max_compat; ring.
Qed.

Lemma tick_sleep_ends_on_schedule_witness :
  ((1 # 4) + sleep_duration 3 2 (1 # 4) == Qmax (1 # 4) (inject_Z (Z.of_nat 1 + 1)))%Q.
Proof.
  apply (tick_sleep_ends_on_schedule 3 1 2 (1 # 4)). reflexivity.
Defined.

(** ** The stop phase *)

Lemma stop_loop_drained env fuel non_agents_threads active_agents s :
  active_agents <= 0 ->
  stop_loop env fuel non_agents_threads active_agents s = (Return tt, s).
Proof.
  intros H. destruct fuel; cbn [stop_loop];
    by assert ((0 <? active_agents) = false) as -> by lia.
Qed.

Lemma stop_loop_poll env fuel non_agents_threads active_agents s :
  0 < active_agents ->
  stop_loop env (S fuel) non_agents_threads active_agents s =
    stop_loop env fuel non_agents_threads
      (active_count env (count_calls s) - non_agents_threads)
      (with_count_calls (S (count_calls s)) (with_slept (slept s ++ [1 # 10]) s)).
Proof.
  intros H. cbn [stop_loop]. assert ((0 <? active_agents) = true) as -> by lia.
  unfold bind at 1. unfold sleep at 1. unfold bind at 1.
  unfold threading_active_count at 1. reflexivity.
Qed.

(** [k] more polls find agent threads running, the next one finds none. *)
Lemma stop_loop_drains env non_agents_threads k fuel active_agents s :
  0 < active_agents -> (k < fuel)%nat ->
  (forall j, (j < k)%nat ->
     non_agents_threads < active_count env (count_calls s + j)) ->
  active_count env (count_calls s + k) <= non_agents_threads ->
  stop_loop env fuel non_agents_threads active_agents s =
    (Return tt,
     with_slept (slept s ++ replicate (S k) (1 # 10))
       (with_count_calls (count_calls s + S k) s)).
Proof.
  revert fuel active_agents s.
  induction k as [| k IH]; intros fuel active_agents s Ha Hk Halive Hext;
    (destruct fuel as [| fuel]; [lia |]); rewrite stop_loop_poll by done.
  - replace (count_calls s + 0)%nat with (count_calls s) in Hext by lia.
    rewrite stop_loop_drained by lia. cbn [replicate]. f_equal. state_eq.
  - rewrite IH.
    + f_equal. cbn [slept count_calls with_slept with_count_calls].
      rewrite <- app_assoc. cbn [app replicate].
      unfold with_slept, with_count_calls;
        cbn [rand_calls clock_calls count_calls agent_count universes slept].
      f_equal. lia.
    + specialize (Halive 0%nat ltac:(lia)).
      replace (count_calls s + 0)%nat with (count_calls s) in Halive by lia. lia.
    + lia.
    + intros j Hj. cbn [count_calls with_slept with_count_calls].
      replace (S (count_calls s) + j)%nat with (count_calls s + S j)%nat by lia.
      apply Halive. lia.
    + cbn [count_calls with_slept with_count_calls].
      by replace (S (count_calls s) + k)%nat with (count_calls s + S k)%nat by lia.
Qed.

(** X9: graceful drain.  The stop phase sets the freeze flag and then polls
    the thread count: when the first [k] polls find agent threads running
    and the next one finds none, it has counted the threads [k + 1] times,
    slept exactly [k] times a tenth of a second, and hands on the universe
    with its freeze flag set. *)
Theorem experiment_stop_drains env fuel universe non_agents_threads s k :
  (k <= fuel)%nat ->
  (forall j, (j < k)%nat ->
     non_agents_threads < active_count env (count_calls s + j)) ->
  active_count env (count_calls s + k) <= non_agents_threads ->
  exists universe',
    experiment_stop env fuel universe non_agents_threads s =
      (Return universe',
       with_slept (slept s ++ replicate k (1 # 10))
         (with_count_calls (count_calls s + S k) s))
    /\ freeze universe' = true.
Proof.
  intros Hk Halive Hext. exists (freeze_set universe).
  split; [| reflexivity]. unfold experiment_stop.
  unfold bind at 1. unfold threading_active_count at 1.
  destruct k as [| k].
  - replace (count_calls s + 0)%nat with (count_calls s) in Hext by lia.
    rewrite (bind_Return _ _ _ tt (with_count_calls (S (count_calls s)) s)).
    + unfold ret. f_equal. cbn [replicate]. rewrite app_nil_r. state_eq.
    + apply stop_loop_drained. lia.
  - rewrite (bind_Return _ _ _ tt
               (with_slept (slept s ++ replicate (S k) (1 # 10))
                  (with_count_calls (count_calls s + S (S k)) s))).
    + reflexivity.
    + rewrite (stop_loop_drains env non_agents_threads k).
      * f_equal. state_eq.
      * specialize (Halive 0%nat ltac:(lia)).
        replace (count_calls s + 0)%nat with (count_calls s) in Halive by lia. lia.
      * lia.
      * intros j Hj. cbn [count_calls with_count_calls].
        replace (S (count_calls s) + j)%nat with (count_calls s + S j)%nat by lia.
        apply Halive. lia.
      * cbn [count_calls with_count_calls].
        by replace (S (count_calls s) + k)%nat with (count_calls s + S k)%nat by lia.
Qed.

Lemma experiment_stop_drains_witness :
  exists universe',
    experiment_stop env_alive 10 (empty_universe 1 1) 1
      (with_count_calls 1 initial_state)
      = (Return universe',
         with_slept [1 # 10; 1 # 10]%Q (with_count_calls 4 initial_state))
    /\ freeze universe' = true.
Proof.
  apply (experiment_stop_drains env_alive 10 (empty_universe 1 1) 1
           (with_count_calls 1 initial_state) 2).
  - lia.
  - intros j Hj. destruct j as [| [| j]]; [vm_compute; reflexivity .. | lia].
  - vm_compute. discriminate.
Defined.

Lemma stop_loop_stalls env non_agents_threads fuel active_agents s :
  0 < active_agents ->
  (forall j, non_agents_threads < active_count env (count_calls s + j)) ->
  stop_loop env fuel non_agents_threads active_agents s =
    (Running,
     with_slept (slept s ++ replicate fuel (1 # 10))
       (with_count_calls (count_calls s + fuel) s)).
Proof.
  revert active_agents s.
  induction fuel as [| fuel IH]; intros active_agents s Ha Halive.
  - cbn [stop_loop]. assert ((0 <? active_agents) = true) as -> by lia.
    f_equal. cbn [replicate]. rewrite app_nil_r. destruct s. state_eq.
  - rewrite stop_loop_poll by done. rewrite IH.
    + f_equal. cbn [slept count_calls with_slept with_count_calls].
      rewrite <- app_assoc. cbn [app replicate].
      unfold with_slept, with_count_calls;
        cbn [rand_calls clock_calls count_calls agent_count universes slept].
      f_equal. lia.
    + specialize (Halive 0%nat).
      replace (count_calls s + 0)%nat with (count_calls s) in Halive by lia. lia.
    + intros j. cbn [count_calls with_slept with_count_calls].
      replace (S (count_calls s) + j)%nat with (count_calls s + S j)%nat by lia.
      apply Halive.
Qed.

(** X10: the drain has no timeout.  While every poll finds agent threads
    running, the stop phase goes on polling: after any number of polls it
    has not returned, having slept a tenth of a second once per poll. *)
Theorem experiment_stop_no_timeout env universe non_agents_threads s :
  (forall j, non_agents_threads < active_count env (count_calls s + j)) ->
  forall fuel,
    experiment_stop env fuel universe non_agents_threads s =
      (Running,
       with_slept (slept s ++ replicate fuel (1 # 10))
         (with_count_calls (count_calls s + S fuel) s)).
Proof.
  intros Halive fuel. unfold experiment_stop.
  unfold bind at 1. unfold threading_active_count at 1.
  unfold bind at 1. rewrite stop_loop_stalls.
  - f_equal. state_eq.
  - specialize (Halive 0%nat).
    replace (count_calls s + 0)%nat with (count_calls s) in Halive by lia. lia.
  - intros j. cbn [count_calls with_count_calls].
    replace (S (count_calls s) + j)%nat with (count_calls s + S j)%nat by lia.
    apply Halive.
Qed.

Lemma experiment_stop_no_timeout_witness :
  experiment_stop env_stuck 3 (empty_universe 1 1) 1 (with_count_calls 1 initial_state)
    = (Running,
       with_slept [1 # 10; 1 # 10; 1 # 10]%Q (with_count_calls 5 initial_state)).
Proof.
  apply (experiment_stop_no_timeout env_stuck (empty_universe 1 1) 1
           (with_count_calls 1 initial_state)).
  intros j. cbn [count_calls with_count_calls env_stuck active_count Nat.add]. lia.
Defined.

(** ** The experiment as a whole *)

Lemma _start_initial_population_cohort parties universe :
  cohort parties false universe ->
  cohort parties true (_start_initial_population universe).
Proof.
  intros Hco i a Hia. cbn [_start_initial_population population space u_height u_width] in *.
  apply lookup_fmap_Some in Hia as (a0 & <- & Hia).
  destruct (Hco i a0 Hia) as (? & ? & ? & ? & _ & ? & ?).
  by cbn [Agent_start id generation parents start_barrier started initial_position].
Qed.

Lemma _invoke_initial_population_from_empty env frames height width n s universe' s' :
  0 <= n ->
  _invoke_initial_population env frames (empty_universe height width) height width
    n random s = (Return universe', s') ->
  cohort n false universe'
  /\ size (population universe') = Z.to_nat n
  /\ occupied universe' = n
  /\ u_height universe' = height /\ u_width universe' = width
  /\ freeze universe' = false
  /\ agent_count s' = (agent_count s + Z.to_nat n)%nat
  /\ universes s' = universes s /\ slept s' = slept s
  /\ count_calls s' = count_calls s.
Proof.
  intros Hn H.
  apply _invoke_initial_population_Return_inv in H as (positions & s1 & Hgen & Hinv).
  destruct (generate_positions_Return_inv env _ _ _ _ _ _ _ _ Hgen)
    as (_ & _ & Hlen); [constructor | constructor |].
  cbn [length Nat.add] in Hlen.
  apply generate_positions_footprint in Hgen as (draws & _ & ->).
  apply invoke_agents_cohort in Hinv
    as (Hco & _ & -> & Hpop & Hsp & Hh & Hw & Hfr & _).
  - cbn [empty_universe population space u_height u_width freeze] in *.
    rewrite map_size_empty in Hpop. rewrite map_size_empty in Hsp.
    cbn [agent_count universes slept count_calls with_agent_count with_rand_calls].
    unfold occupied.
    split; [exact Hco |]. split; [lia |]. split; [lia |].
    split; [exact Hh |]. split; [exact Hw |]. split; [exact Hfr |].
    split; [lia |]. done.
  - apply cohort_empty_universe.
  - intros i _. apply lookup_empty.
Qed.

Lemma experiment_setup_Return_cohort env frames height width n s universe
    non_agents_threads timings s' :
  1 <= n ->
  experiment_setup env frames height width n s
    = (Return (universe, non_agents_threads, timings), s') ->
  cohort n true universe
  /\ size (population universe) = Z.to_nat n
  /\ occupied universe = n
  /\ u_height universe = height /\ u_width universe = width
  /\ freeze universe = false
  /\ non_agents_threads = active_count env (count_calls s)
  /\ agent_count s' = (agent_count s + Z.to_nat n)%nat
  /\ universes s' = S (universes s) /\ slept s' = slept s.
Proof.
  intros Hn H. unfold experiment_setup in H.
  bind_inv H. inversion Hm; subst; clear Hm.
  bind_inv H. inversion Hm; subst; clear Hm.
  bind_inv H.
  apply _invoke_initial_population_from_empty in Hm
    as (Hco & Hpop & Hocc & Hh & Hw & Hfr & Hag & Hun & Hsl & Hcc); [| lia].
  bind_inv H. unfold py_assert in Hm.
  destruct (occupied a =? n); inversion Hm; subst; clear Hm.
  bind_inv H. inversion Hm; subst; clear Hm.
  bind_inv H. inversion Hm; subst; clear Hm.
  bind_inv H. inversion Hm; subst; clear Hm.
  inversion H; subst; clear H.
  cbn [agent_count universes slept count_calls with_clock_calls with_universes
       with_count_calls] in *.
  split; [by apply _start_initial_population_cohort |].
  cbn [_start_initial_population population space u_height u_width freeze occupied].
  rewrite map_size_fmap.
  repeat split; try done. by rewrite Hcc.
Qed.

Lemma experiment_stop_Return_inv env fuel universe non_agents_threads s universe' s' :
  experiment_stop env fuel universe non_agents_threads s = (Return universe', s') ->
  universe' = freeze_set universe
  /\ rand_calls s' = rand_calls s /\ agent_count s' = agent_count s
  /\ universes s' = universes s.
Proof.
  unfold experiment_stop. intros H.
  bind_inv H. inversion Hm; subst; clear Hm.
  bind_inv H. inversion H; subst; clear H.
  split; [done |].
  assert (forall fuel a s o s',
            stop_loop env fuel non_agents_threads a s = (o, s') ->
            rand_calls s' = rand_calls s /\ agent_count s' = agent_count s
            /\ universes s' = universes s) as Hframe.
  { clear. intros fuel. induction fuel as [| fuel IH]; intros a s o s' H;
      cbn [stop_loop] in H; destruct (0 <? a).
    - by inversion H.
    - by inversion H.
    - unfold bind at 1 in H. unfold sleep at 1 in H. unfold bind at 1 in H.
      unfold threading_active_count at 1 in H. by apply IH in H.
    - by inversion H. }
  by apply Hframe in Hm.
Qed.

Lemma experiment_run_footprint env non_agents_threads max_total_duration
    max_simulation_duration s o s' :
  experiment_run env non_agents_threads max_total_duration max_simulation_duration s
    = (o, s') ->
  (exists r, o = Return r)
  /\ rand_calls s' = rand_calls s /\ agent_count s' = agent_count s
  /\ universes s' = universes s /\ (count_calls s <= count_calls s')%nat.
Proof.
  intros H.
  destruct (run_loop_total env non_agents_threads (time_ns env (clock_calls s))
              (simulation_duration max_total_duration max_simulation_duration
                 (time_ns env (clock_calls s)))
              (range_down (simulation_duration max_total_duration
                 max_simulation_duration (time_ns env (clock_calls s))))
              (with_clock_calls (S (clock_calls s)) s))
    as (b & k & _ & _ & Hrun).
  rewrite (experiment_run_unfold _ _ _ _ _ _ _ Hrun) in H.
  inversion H; subst; clear H.
  cbn [rand_calls agent_count universes count_calls with_slept with_clock_calls
       with_count_calls].
  split; [by eexists |]. repeat split; lia.
Qed.

Lemma experiment_setup_Return_grid env frames height width n s r s' :
  1 <= n ->
  experiment_setup env frames height width n s = (Return r, s') ->
  1 <= height /\ 1 <= width.
Proof.
  intros Hn H. unfold experiment_setup in H.
  bind_inv H. inversion Hm; subst; clear Hm.
  bind_inv H. inversion Hm; subst; clear Hm.
  bind_inv H.
  apply _invoke_initial_population_Return_inv in Hm as (positions & s1 & Hgen & _).
  destruct (Z.to_nat n) as [| count] eqn:E; [lia |].
  cbn [generate_positions] in Hgen. bind_inv Hgen.
  by apply _generate_position_Return_inv in Hm as (Hh & Hw & _).
Qed.

(** X11: the result bundle.  Whenever [experiment] returns, called with
    [initial_population_count ≥ 1], the dictionary holds the five arguments
    of the call under [parameters], and under [universe] the one universe
    the controller constructed, of the requested dimensions and with its
    freeze flag set; and the configuration was a valid one: the grid has at
    least one row and one column and
    [initial_population_count ≤ height × width]. *)
Theorem experiment_result_bundle env frames fuel height width initial_population_count
    max_total_duration max_simulation_duration s r s' :
  1 <= initial_population_count ->
  experiment env frames fuel height width initial_population_count
    max_total_duration max_simulation_duration s = (Return r, s') ->
  parameters r =
    [("height"%string, height); ("width"%string, width);
     ("initial_population_count"%string, initial_population_count);
     ("max_total_duration"%string, max_total_duration);
     ("max_simulation_duration"%string, max_simulation_duration)]
  /\ freeze (universe r) = true
  /\ u_height (universe r) = height /\ u_width (universe r) = width
  /\ 1 <= height /\ 1 <= width
  /\ initial_population_count <= height * width
  /\ universes s' = S (universes s).
Proof.
  intros Hn H. unfold experiment in H.
  bind_inv H. unfold py_assert in Hm.
  destruct (initial_population_count <=? height * width) eqn:Hle;
    inversion Hm; subst; clear Hm.
  bind_inv H.
  match goal with
  | x : (Universe * Z * list (string * Z))%type |- _ =>
      destruct x as [[universe0 non_agents_threads] timings0]
  end.
  destruct (experiment_setup_Return_grid _ _ _ _ _ _ _ _ Hn Hm) as [Hgh Hgw].
  apply experiment_setup_Return_cohort in Hm
    as (_ & _ & _ & Hh & Hw & _ & _ & _ & Hun & _); [| done].
  bind_inv H. apply experiment_run_footprint in Hm as (_ & _ & _ & Hu & _).
  bind_inv H. apply experiment_stop_Return_inv in Hm as (-> & _ & _ & Hu').
  bind_inv H. inversion Hm; subst; clear Hm. inversion H; subst; clear H.
  cbn [parameters universe set_culmination freeze_set freeze u_height u_width
       universes with_clock_calls] in *.
  split; [done |]. split; [done |]. split; [done |]. split; [done |].
  split; [done |]. split; [done |]. split; [lia |]. lia.
Qed.

Lemma experiment_result_bundle_witness :
  exists r s',
    experiment env_recorded default_recursion_limit 10 3 4 5 10 2 initial_state
      = (Return r, s')
    /\ freeze (universe r) = true
    /\ u_height (universe r) = 3 /\ u_width (universe r) = 4
    /\ universes s' = 1%nat.
Proof.
  destruct (experiment env_recorded default_recursion_limit 10 3 4 5 10 2
              initial_state) as [[r | e |] s'] eqn:E.
  - exists r, s'. split; [reflexivity |].
    pose proof (experiment_result_bundle env_recorded default_recursion_limit 10
                  3 4 5 10 2 initial_state r s' ltac:(lia) E)
      as (_ & Hfr & Hh & Hw & _ & _ & _ & Hun).
    split; [exact Hfr | split; [exact Hh | split; [exact Hw | exact Hun]]].
  - exfalso. vm_compute in E. discriminate.
  - exfalso. vm_compute in E. discriminate.
Defined.

Lemma _invoke_initial_population_outcome env frames height width n s :
  1 <= height -> 1 <= width -> 0 <= n ->
  (exists universe' s',
     _invoke_initial_population env frames (empty_universe height width) height width
       n random s = (Return universe', s'))
  \/ (exists s',
        _invoke_initial_population env frames (empty_universe height width) height
          width n random s = (Raise RecursionError, s')
        /\ agent_count s' = agent_count s /\ universes s' = universes s
        /\ slept s' = slept s).
Proof.
  intros Hh Hw Hn. unfold _invoke_initial_population.
  destruct (generate_positions_outcome env frames (Z.to_nat n) [] height width s Hh Hw)
    as [(l & s1 & Hgen) | (s1 & Hgen)].
  - left. rewrite (bind_Return _ _ _ _ _ Hgen).
    destruct (generate_positions_Return_inv env _ _ _ _ _ _ _ _ Hgen)
      as (Hnd & Hb & _); [constructor | constructor |].
    destruct (invoke_agents_Return (empty_universe height width) n l s1)
      as (u' & Hinv & _); [done | done | | by eauto].
    intros p _. apply lookup_empty.
  - right. exists s1. rewrite (bind_Raise _ _ _ _ _ Hgen). split; [done |].
    by apply generate_positions_footprint in Hgen as (draws & _ & ->).
Qed.

Lemma experiment_setup_Raise_inv env frames height width n s e s' :
  1 <= height -> 1 <= width -> 0 <= n ->
  experiment_setup env frames height width n s = (Raise e, s') ->
  e = RecursionError /\ agent_count s' = agent_count s
  /\ universes s' = S (universes s) /\ slept s' = slept s.
Proof.
  intros Hh Hw Hn H. unfold experiment_setup in H.
  unfold bind at 1 in H. unfold Universe_init at 1 in H.
  unfold bind at 1 in H. unfold get_time at 1 in H.
  destruct (_invoke_initial_population_outcome env frames height width n
              (with_clock_calls (S (clock_calls (with_universes (S (universes s)) s)))
                 (with_universes (S (universes s)) s)) Hh Hw Hn)
    as [(u' & s1 & Hinv) | (s1 & Hinv & Ha & Hu & Hs)].
  - exfalso. rewrite (bind_Return _ _ _ _ _ Hinv) in H.
    apply _invoke_initial_population_from_empty in Hinv as (_ & _ & Hocc & _); [| done].
    unfold bind at 1 in H. unfold py_assert at 1 in H.
    assert ((occupied u' =? n) = true) as Hok by lia. rewrite Hok in H.
    cbn in H. discriminate.
  - rewrite (bind_Raise _ _ _ _ _ Hinv) in H. inversion H; subst; clear H.
    cbn [agent_count universes slept with_clock_calls with_universes] in *.
    by repeat split.
Qed.

Lemma stop_loop_no_raise env fuel non_agents_threads active_agents s e s' :
  stop_loop env fuel non_agents_threads active_agents s <> (Raise e, s').
Proof.
  revert active_agents s. induction fuel as [| fuel IH]; intros a s;
    cbn [stop_loop]; destruct (0 <? a); try discriminate.
  unfold bind at 1. unfold sleep at 1. unfold bind at 1.
  unfold threading_active_count at 1. apply IH.
Qed.

Lemma experiment_stop_no_raise env fuel universe non_agents_threads s e s' :
  experiment_stop env fuel universe non_agents_threads s <> (Raise e, s').
Proof.
  unfold experiment_stop. unfold bind at 1. unfold threading_active_count at 1.
  unfold bind at 1.
  destruct (stop_loop env fuel non_agents_threads
              (active_count env (count_calls s) - non_agents_threads)
              (with_count_calls (S (count_calls s)) s)) as [[[] | e0 |] s1] eqn:E;
    try discriminate.
  by apply stop_loop_no_raise in E.
Qed.

(** X12: with a valid configuration ([height ≥ 1], [width ≥ 1],
    [1 ≤ initial_population_count ≤ height × width]) the only exception
    [experiment] raises is the [RecursionError] of position generation: the
    entry check, the uniqueness assertion after the invocation and the
    registration of the agents never fail; and when it is raised, the
    universe has been constructed, no agent has been created and the
    controller has not slept. *)
Theorem experiment_raises_only_RecursionError env frames fuel height width
    initial_population_count max_total_duration max_simulation_duration s e s' :
  1 <= height -> 1 <= width ->
  1 <= initial_population_count <= height * width ->
  experiment env frames fuel height width initial_population_count
    max_total_duration max_simulation_duration s = (Raise e, s') ->
  e = RecursionError /\ universes s' = S (universes s)
  /\ agent_count s' = agent_count s /\ slept s' = slept s.
Proof.
  intros Hh Hw Hn H. unfold experiment in H.
  unfold bind at 1 in H. unfold py_assert at 1 in H.
  assert ((initial_population_count <=? height * width) = true) as Hok by lia.
  rewrite Hok in H. cbn [ret] in H.
  unfold bind at 1 in H.
  destruct (experiment_setup env frames height width initial_population_count s)
    as [[[[universe0 non_agents_threads] timings0] | e0 |] s1] eqn:Hsetup.
  - exfalso. unfold bind at 1 in H.
    destruct (experiment_run env non_agents_threads max_total_duration
                max_simulation_duration s1) as [o s2] eqn:Hrun.
    destruct (experiment_run_footprint _ _ _ _ _ _ _ Hrun) as ([r ->] & _).
    unfold bind at 1 in H.
    destruct (experiment_stop env fuel universe0 non_agents_threads s2)
      as [[u1 | e1 |] s3] eqn:Hstop.
    + unfold bind at 1 in H. unfold get_time at 1 in H. discriminate.
    + by apply experiment_stop_no_raise in Hstop.
    + discriminate.
  - inversion H; subst; clear H.
    apply experiment_setup_Raise_inv in Hsetup as (-> & ? & ? & ?); [| lia ..].
    done.
  - discriminate.
Qed.

Lemma experiment_raises_only_RecursionError_witness :
  experiment env_counting default_recursion_limit 10 2 2 3 5 3 initial_state
    = (Raise RecursionError,
       with_rand_calls 2004 (with_clock_calls 1 (with_universes 1 initial_state)))
  /\ RecursionError = RecursionError
  /\ universes (with_rand_calls 2004
                  (with_clock_calls 1 (with_universes 1 initial_state)))
     = S (universes initial_state)
  /\ agent_count (with_rand_calls 2004
                    (with_clock_calls 1 (with_universes 1 initial_state)))
     = agent_count initial_state
  /\ slept (with_rand_calls 2004
              (with_clock_calls 1 (with_universes 1 initial_state)))
     = slept initial_state.
Proof.
  assert (experiment env_counting default_recursion_limit 10 2 2 3 5 3 initial_state
          = (Raise RecursionError,
             with_rand_calls 2004
               (with_clock_calls 1 (with_universes 1 initial_state)))) as E.
  { vm_compute. reflexivity. }
  split; [exact E |].
  exact (experiment_raises_only_RecursionError env_counting
           default_recursion_limit 10 2 2 3 5 3 initial_state _ _
           ltac:(lia) ltac:(lia) ltac:(lia) E).
Defined.

Lemma searches_succeed_le_grid env frames height width n c :
  1 <= height -> 1 <= width -> 0 <= n ->
  searches_succeed env frames height width (Z.to_nat n) [] c ->
  n <= height * width.
Proof.
  intros Hh Hw Hn Hsearch.
  destruct (generate_positions_searches env frames (Z.to_nat n) [] height width
              (with_rand_calls c initial_state) Hh Hw Hsearch)
    as (positions & s1 & Hgen).
  destruct (generate_positions_Return_inv env _ _ _ _ _ _ _ _ Hgen)
    as (Hnd & Hb & Hlen); [constructor | constructor |].
  cbn [length Nat.add] in Hlen.
  pose proof (length_positions_le_grid height width positions Hw Hnd Hb). nia.
Qed.

Lemma experiment_setup_total env frames height width n s :
  1 <= height -> 1 <= width -> 0 <= n ->
  searches_succeed env frames height width (Z.to_nat n) [] (rand_calls s) ->
  exists universe timings s',
    experiment_setup env frames height width n s
      = (Return (universe, active_count env (count_calls s), timings), s')
    /\ count_calls s' = S (count_calls s).
Proof.
  intros Hh Hw Hn Hsearch. unfold experiment_setup.
  unfold bind at 1. unfold Universe_init at 1.
  unfold bind at 1. unfold get_time at 1.
  destruct (_invoke_initial_population_searches env frames height width n
              (with_clock_calls (S (clock_calls (with_universes (S (universes s)) s)))
                 (with_universes (S (universes s)) s)) Hh Hw Hsearch)
    as (u' & s1 & Hinv).
  rewrite (bind_Return _ _ _ _ _ Hinv).
  apply _invoke_initial_population_from_empty in Hinv
    as (_ & _ & Hocc & _ & _ & _ & _ & _ & _ & Hcc); [| lia].
  unfold bind at 1. unfold py_assert at 1.
  assert ((occupied u' =? n) = true) as -> by lia. cbn [ret].
  unfold bind at 1. unfold get_time at 1.
  unfold bind at 1. unfold threading_active_count at 1.
  unfold bind at 1. unfold get_time at 1. unfold ret.
  cbn [count_calls with_clock_calls with_universes with_count_calls] in *.
  eexists _, _, _. split; [rewrite Hcc; reflexivity |].
  reflexivity.
Qed.

Lemma stop_loop_terminates env non_agents_threads fuel active_agents s :
  (forall k, (count_calls s + fuel <= S k)%nat ->
     active_count env k <= non_agents_threads) ->
  (fuel = 0%nat -> active_agents <= 0) ->
  exists s', stop_loop env fuel non_agents_threads active_agents s = (Return tt, s').
Proof.
  revert active_agents s.
  induction fuel as [| fuel IH]; intros active_agents s Hlate Hzero.
  - exists s. apply stop_loop_drained. by apply Hzero.
  - destruct (decide (active_agents <= 0)) as [Hdone | Hmore].
    + exists s. by apply stop_loop_drained.
    + rewrite stop_loop_poll by lia. apply IH.
      * intros k Hk. apply Hlate.
        cbn [count_calls with_count_calls with_slept] in Hk. lia.
      * intros ->. specialize (Hlate (count_calls s) ltac:(lia)). lia.
Qed.

(** X13: [experiment] returns its result bundle when the grid has at least
    one row and one column, each of the [initial_population_count ≥ 1]
    searches for an initial position meets a free draw before the stack is
    used up, and from some poll on the thread count is back at the baseline
    counted before the agents were started, the drain being followed for at
    least that many polls. *)
Theorem experiment_returns env frames fuel height width initial_population_count
    max_total_duration max_simulation_duration s polls :
  1 <= height -> 1 <= width ->
  1 <= initial_population_count ->
  searches_succeed env frames height width (Z.to_nat initial_population_count) []
    (rand_calls s) ->
  (forall k, (polls <= k)%nat ->
     active_count env k <= active_count env (count_calls s)) ->
  (polls <= fuel)%nat ->
  exists r s',
    experiment env frames fuel height width initial_population_count
      max_total_duration max_simulation_duration s = (Return r, s').
Proof.
  intros Hh Hw Hn Hsearch Hlate Hfuel. unfold experiment.
  unfold bind at 1. unfold py_assert at 1.
  pose proof (searches_succeed_le_grid env frames height width
                initial_population_count (rand_calls s) Hh Hw ltac:(lia) Hsearch)
    as Hle.
  assert ((initial_population_count <=? height * width) = true) as -> by lia.
  cbn [ret].
  destruct (experiment_setup_total env frames height width initial_population_count s
              Hh Hw ltac:(lia) Hsearch) as (universe0 & timings0 & s1 & Hsetup & Hc1).
  rewrite (bind_Return _ _ _ _ _ Hsetup).
  destruct (experiment_run env (active_count env (count_calls s)) max_total_duration
              max_simulation_duration s1) as [o s2] eqn:Hrun.
  destruct (experiment_run_footprint _ _ _ _ _ _ _ Hrun)
    as ([run ->] & _ & _ & _ & Hc2).
  unfold bind at 1. rewrite Hrun.
  assert (exists s3,
            experiment_stop env fuel universe0 (active_count env (count_calls s)) s2
              = (Return (freeze_set universe0), s3)) as [s3 Hstop].
  { unfold experiment_stop. unfold bind at 1. unfold threading_active_count at 1.
    destruct (stop_loop_terminates env (active_count env (count_calls s)) fuel
                (active_count env (count_calls s2) - active_count env (count_calls s))
                (with_count_calls (S (count_calls s2)) s2)) as [s3 Hloop].
    - intros k Hk. apply Hlate. cbn [count_calls with_count_calls] in Hk. lia.
    - intros ->. specialize (Hlate (count_calls s2) ltac:(lia)). lia.
    - exists s3. by rewrite (bind_Return _ _ _ _ _ Hloop). }
  rewrite (bind_Return _ _ _ _ _ Hstop).
  unfold bind at 1. unfold get_time at 1. unfold ret. by eexists _, _.
Qed.

(** The recorded run on the grid of 3 × 4 with five agents: two ticks of the
    run phase find an agent thread running, and so do the first two polls of
    the drain; the third finds none. *)
Lemma experiment_returns_witness :
  exists r s',
    experiment env_recorded default_recursion_limit 10 3 4 5 10 2 initial_state
      = (Return r, s')
    /\ count_calls s' = 6%nat
    /\ drop 2 (slept s') = [1 # 10; 1 # 10]%Q.
Proof.
  assert (searches_succeed env_recorded default_recursion_limit 3 4 (Z.to_nat 5) []
            (rand_calls initial_state)) as Hsearch.
  { assert (exists positions s1,
              generate_positions env_recorded default_recursion_limit (Z.to_nat 5) []
                3 4 initial_state = (Return positions, s1)) as (positions & s1 & Hgen).
    { eexists _, _. vm_compute. reflexivity. }
    exact (generate_positions_Return_searches env_recorded _ _ _ _ _ _ _ _ Hgen). }
  destruct (experiment_returns env_recorded default_recursion_limit 10 3 4 5 10 2
              initial_state 5 ltac:(lia) ltac:(lia) ltac:(lia) Hsearch)
    as (r & s' & E).
  - intros k Hk. cbn [active_count env_recorded count_calls initial_state].
    do 5 (destruct k as [| k]; [lia |]). lia.
  - lia.
  - exists r, s'. split; [exact E |].
    replace s' with
      (snd (experiment env_recorded default_recursion_limit 10 3 4 5 10 2
              initial_state)) by (by rewrite E).
    split; vm_compute; reflexivity.
Defined.

(** * [Lab.vizuaanalyze]: properties *)

Import Analysis.

Lemma sum_Permutation l1 l2 : l1 ≡ₚ l2 -> py_sum l1 = py_sum l2.
Proof.
  induction 1 as [| v l1 l2 _ IH | v w l | l1 l2 l3 _ IH1 _ IH2]; unfold py_sum in *;
    cbn [foldr]; lia.
Qed.

Lemma length_merge_sort (l : list Z) : length (merge_sort Z.le l) = length l.
Proof. apply Permutation_length, merge_sort_Permutation. Qed.

Lemma median_lookup (l : list Z) :
  l <> [] -> exists m, merge_sort Z.le l !! (length (merge_sort Z.le l) / 2)%nat = Some m.
Proof.
  intros Hne. apply lookup_lt_is_Some_2. rewrite length_merge_sort.
  destruct l as [| v l]; [done |]. cbn [length].
  apply Nat.div_lt; lia.
Qed.

Lemma plot_paths_seq (agents : list Z) a n :
  plot_paths agents (seq a n) =
    if decide (n = 0 \/ a + n <= length agents)%nat
    then inr ((fun i : nat => Z.of_nat i + 1) <$> seq a n)
    else inl IndexError.
Proof.
  revert a. induction n as [| n IH]; intros a.
  - cbn [seq plot_paths fmap list_fmap]. by destruct (decide _) as [_ | []]; [| left].
  - cbn [seq plot_paths]. rewrite IH.
    destruct (agents !! a) as [v |] eqn:Ha.
    + apply lookup_lt_Some in Ha.
      destruct (decide (n = 0 \/ S a + n <= length agents)%nat) as [H1 | H1];
        destruct (decide (S n = 0 \/ a + S n <= length agents)%nat) as [H2 | H2];
        try reflexivity; exfalso; lia.
    + apply lookup_ge_None in Ha.
      destruct (decide (S n = 0 \/ a + S n <= length agents)%nat) as [H2 | H2];
        [exfalso; lia | reflexivity].
Qed.

Lemma vizuaanalyze_unfold Agent_count paths n m :
  paths <> [] ->
  merge_sort Z.le paths !! (length (merge_sort Z.le paths) / 2)%nat = Some m ->
  1 <= Z.min n Agent_count ->
  vizuaanalyze Agent_count paths n =
    if decide (Z.min n Agent_count <= Z.of_nat (length paths))
    then
      inr {| n_viz := Z.min n Agent_count;
             path_len_mean := py_sum paths ÷ Z.of_nat (length paths);
             path_len_median := m;
             n_rows := Z.sqrt_up (Z.min n Agent_count);
             n_cols := - (- Z.min n Agent_count / Z.sqrt_up (Z.min n Agent_count));
             subplots :=
               (fun i : nat => Z.of_nat i + 1)
                 <$> seq 0 (Z.to_nat (Z.min n Agent_count)) |}
    else inl IndexError.
Proof.
  intros Hne Hm Hn. unfold vizuaanalyze, int_quotient, ceil_sqrt, ceil_quotient.
  rewrite Hm, length_merge_sort, (sum_Permutation _ _ (merge_sort_Permutation Z.le paths)).
  assert ((Z.of_nat (length paths) =? 0) = false) as ->.
  { apply Z.eqb_neq. destruct paths; [done |]. cbn [length]. lia. }
  assert ((Z.min n Agent_count <? 0) = false) as -> by lia.
  assert ((Z.sqrt_up (Z.min n Agent_count) =? 0) = false) as ->.
  { apply Z.eqb_neq.
    pose proof (proj2 (Z.sqrt_up_pos (Z.min n Agent_count)) ltac:(lia)). lia. }
  cbv zeta. rewrite plot_paths_seq.
  destruct (decide (Z.to_nat (Z.min n Agent_count) = 0
                    \/ 0 + Z.to_nat (Z.min n Agent_count) <= length paths)%nat)
    as [H1 | H1];
    destruct (decide (Z.min n Agent_count <= Z.of_nat (length paths))) as [H2 | H2];
    try reflexivity; exfalso; lia.
Qed.

(** X14: what [vizuaanalyze] fails on.  Without agents it raises
    [ZeroDivisionError] (the mean path length divides by the number of
    agents); with agents, it raises [TypeError] when the number of plots
    [min(n_viz, Agent.count)] is negative, [ZeroDivisionError] when it is
    zero (the number of columns divides by the number of rows), and
    [IndexError] when it exceeds the number of agents in the registry, which
    [Agent.count] may do (the plot loop reads [agents[i]] past the end of
    the list); with at least one plot and no more plots than agents it
    raises nothing, the median index being always in range. *)
Theorem vizuaanalyze_errors Agent_count paths n :
  match vizuaanalyze Agent_count paths n with
  | inl ZeroDivisionError => paths = [] \/ Z.min n Agent_count = 0
  | inl TypeError => paths <> [] /\ Z.min n Agent_count < 0
  | inl IndexError =>
      paths <> [] /\ 1 <= Z.min n Agent_count
      /\ Z.of_nat (length paths) < Z.min n Agent_count
  | inr figures =>
      paths <> [] /\ 1 <= Z.min n Agent_count <= Z.of_nat (length paths)
  end.
Proof.
  destruct (decide (paths = [])) as [-> | Hne].
  { vm_compute. by left. }
  destruct (median_lookup paths Hne) as [m Hm].
  destruct (Z.lt_trichotomy (Z.min n Agent_count) 0) as [Hneg | [Hzero | Hpos]].
  - unfold vizuaanalyze, int_quotient, ceil_sqrt. rewrite Hm, length_merge_sort.
    assert ((Z.of_nat (length paths) =? 0) = false) as ->.
    { apply Z.eqb_neq. destruct paths; [done |]. cbn [length]. lia. }
    assert ((Z.min n Agent_count <? 0) = true) as -> by lia. done.
  - unfold vizuaanalyze, int_quotient, ceil_sqrt, ceil_quotient.
    rewrite Hm, length_merge_sort, Hzero.
    assert ((Z.of_nat (length paths) =? 0) = false) as ->.
    { apply Z.eqb_neq. destruct paths; [done |]. cbn [length]. lia. }
    cbn. by right.
  - rewrite (vizuaanalyze_unfold _ _ _ m) by (done || lia).
    destruct (decide _) as [Hfit | Hover].
    + split; [done | lia].
    + split; [done |]. split; lia.
Qed.

Lemma vizuaanalyze_inr_inv Agent_count paths n figures :
  vizuaanalyze Agent_count paths n = inr figures ->
  paths <> [] /\ 1 <= Z.min n Agent_count
  /\ exists m,
       merge_sort Z.le paths !! (length (merge_sort Z.le paths) / 2)%nat = Some m
       /\ figures =
            {| n_viz := Z.min n Agent_count;
               path_len_mean := py_sum paths ÷ Z.of_nat (length paths);
               path_len_median := m;
               n_rows := Z.sqrt_up (Z.min n Agent_count);
               n_cols := - (- Z.min n Agent_count / Z.sqrt_up (Z.min n Agent_count));
               subplots :=
                 (fun i : nat => Z.of_nat i + 1)
                   <$> seq 0 (Z.to_nat (Z.min n Agent_count)) |}.
Proof.
  intros H.
  destruct (decide (paths = [])) as [-> | Hne]; [vm_compute in H; discriminate |].
  destruct (median_lookup paths Hne) as [m Hm].
  assert ((Z.of_nat (length paths) =? 0) = false) as Hlen.
  { apply Z.eqb_neq. destruct paths; [done |]. cbn [length]. lia. }
  destruct (decide (1 <= Z.min n Agent_count)) as [Hpos | Hnpos].
  - rewrite (vizuaanalyze_unfold _ _ _ m) in H by done.
    destruct (decide _) as [_ | _]; [| discriminate].
    inversion H; subst; clear H. split; [done |]. split; [done |]. by exists m.
  - exfalso. unfold vizuaanalyze, int_quotient, ceil_sqrt, ceil_quotient in H.
    rewrite Hm, length_merge_sort, Hlen in H.
    destruct (Z.min n Agent_count <? 0) eqn:E; [discriminate |].
    assert (Z.min n Agent_count = 0) as Hz by lia. rewrite Hz in H.
    cbn in H. discriminate.
Qed.

Lemma length_filter_Forall (P : Z -> Prop) `{!forall v, Decision (P v)} (l : list Z) :
  Forall P l -> length (filter P l) = length l.
Proof.
  induction 1 as [| v l Hv _ IH]; [done |].
  rewrite filter_cons_True by done. cbn [length]. by rewrite IH.
Qed.

(** X15: the mean path length [vizuaanalyze] prints is the average rounded
    down: for path lengths that are not negative, as lengths are,
    [mean × agents ≤ total < (mean + 1) × agents]. *)
Theorem vizuaanalyze_mean Agent_count paths n figures :
  Forall (fun v => 0 <= v) paths ->
  vizuaanalyze Agent_count paths n = inr figures ->
  path_len_mean figures * Z.of_nat (length paths) <= py_sum paths
  /\ py_sum paths < (path_len_mean figures + 1) * Z.of_nat (length paths).
Proof.
  intros Hnn H.
  apply vizuaanalyze_inr_inv in H as (Hne & _ & m & _ & ->). cbn [path_len_mean].
  assert (0 <= py_sum paths) as Hsum.
  { clear Hne. induction Hnn as [| v l Hv _ IH]; unfold py_sum in *; cbn [foldr]; lia. }
  assert (0 < Z.of_nat (length paths)) as Hlen.
  { destruct paths; [done |]. cbn [length]. lia. }
  rewrite Z.quot_div_nonneg by lia.
  pose proof (Z.mul_div_le (py_sum paths) (Z.of_nat (length paths)) Hlen).
  pose proof (Z.mul_succ_div_gt (py_sum paths) (Z.of_nat (length paths)) Hlen).
  lia.
Qed.

Lemma vizuaanalyze_mean_witness :
  exists figures,
    vizuaanalyze 3 [4; 1; 2] 2 = inr figures
    /\ path_len_mean figures * Z.of_nat (length [4; 1; 2]) <= py_sum [4; 1; 2]
    /\ py_sum [4; 1; 2] < (path_len_mean figures + 1) * Z.of_nat (length [4; 1; 2]).
Proof.
  destruct (vizuaanalyze 3 [4; 1; 2] 2) as [e | figures] eqn:E.
  - exfalso. vm_compute in E. discriminate.
  - exists figures. split; [reflexivity |].
    apply (vizuaanalyze_mean 3 [4; 1; 2] 2 figures); [| exact E].
    repeat constructor; lia.
Defined.

(** X16: the median path length [vizuaanalyze] prints is the path length of
    one of the agents, more than half of the agents have a path no longer
    than it, and at least half of them a path no shorter: it is the upper
    median. *)
Theorem vizuaanalyze_median Agent_count paths n figures :
  vizuaanalyze Agent_count paths n = inr figures ->
  path_len_median figures ∈ paths
  /\ (length paths
      < 2 * length (filter (fun v : Z => (v <= path_len_median figures)%Z) paths))%nat
  /\ (length paths
      <= 2 * length (filter (fun v : Z => (path_len_median figures <= v)%Z) paths))%nat.
Proof.
  intros H.
  apply vizuaanalyze_inr_inv in H as (_ & _ & m & Hm & ->). cbn [path_len_median].
  pose proof (merge_sort_Permutation Z.le paths) as Hperm.
  pose proof (StronglySorted_merge_sort Z.le paths) as Hsorted.
  apply list_elem_of_split_length in Hm as (l1 & l2 & Hsplit & Hk).
  rewrite Hsplit in Hsorted.
  assert (Forall (fun v => v <= m) l1) as Hlow.
  { apply Forall_forall. intros v Hv.
    apply (StronglySorted_app_1_elem_of Z.le l1 (m :: l2)); [done | done | by left]. }
  assert (Forall (fun v => m <= v) l2) as Hhigh.
  { apply StronglySorted_app_1_r in Hsorted. by inversion Hsorted. }
  assert (length paths = (length l1 + S (length l2))%nat) as Hlen.
  { rewrite <- (Permutation_length Hperm), Hsplit, List.length_app. reflexivity. }
  rewrite Hsplit, List.length_app in Hk. cbn [length] in Hk.
  split; [| split].
  - rewrite <- Hperm, Hsplit. apply elem_of_app. right. by left.
  - rewrite <- Hperm, Hsplit, filter_app, !List.length_app.
    rewrite (length_filter_Forall _ l1 Hlow), filter_cons_True by lia.
    cbn [length].
    pose proof (Nat.div_mod_eq (length l1 + S (length l2)) 2).
    pose proof (Nat.mod_upper_bound (length l1 + S (length l2)) 2). lia.
  - rewrite <- Hperm, Hsplit, filter_app, !List.length_app.
    rewrite filter_cons_True by lia. cbn [length].
    rewrite (length_filter_Forall _ l2 Hhigh).
    pose proof (Nat.div_mod_eq (length l1 + S (length l2)) 2).
    pose proof (Nat.mod_upper_bound (length l1 + S (length l2)) 2). lia.
Qed.

Lemma vizuaanalyze_median_witness :
  exists figures,
    vizuaanalyze 4 [4; 1; 7; 2] 2 = inr figures
    /\ path_len_median figures = 4
    /\ path_len_median figures ∈ [4; 1; 7; 2].
Proof.
  destruct (vizuaanalyze 4 [4; 1; 7; 2] 2) as [e | figures] eqn:E.
  - exfalso. vm_compute in E. discriminate.
  - exists figures. split; [reflexivity |]. split.
    + vm_compute in E. by inversion E.
    + exact (proj1 (vizuaanalyze_median 4 [4; 1; 7; 2] 2 figures E)).
Defined.

(** X17: the grid of subplots holds every plot.  When [vizuaanalyze]
    succeeds it shows [min(n_viz, Agent.count) ≥ 1] plots on a grid of
    [n_rows × n_cols] places with [n_rows] the square root of that number
    rounded up and [1 ≤ n_cols ≤ n_rows]; the subplots are created with the
    indices 1, 2, ... in order, every one of them a place of the grid. *)
Theorem vizuaanalyze_grid Agent_count paths n figures :
  vizuaanalyze Agent_count paths n = inr figures ->
  n_viz figures = Z.min n Agent_count /\ 1 <= n_viz figures
  /\ (n_rows figures - 1) * (n_rows figures - 1) < n_viz figures
     <= n_rows figures * n_rows figures
  /\ 1 <= n_cols figures <= n_rows figures
  /\ n_viz figures <= n_rows figures * n_cols figures
  /\ Z.of_nat (length (subplots figures)) = n_viz figures
  /\ (forall i num, subplots figures !! i = Some num ->
        num = Z.of_nat i + 1 /\ 1 <= num <= n_rows figures * n_cols figures).
Proof.
  intros H.
  apply vizuaanalyze_inr_inv in H as (_ & Hpos & m & _ & ->).
  cbn [n_viz n_rows n_cols subplots].
  set (v := Z.min n Agent_count) in *.
  pose proof (Z.sqrt_up_spec v ltac:(lia)) as Hsq.
  set (r := Z.sqrt_up v) in *.
  assert (1 <= r) as Hr by nia.
  assert (1 <= - (- v / r) <= r /\ v <= r * - (- v / r)) as [Hc Hfit].
  { pose proof (Z.div_mod (- v) r ltac:(lia)).
    pose proof (Z.mod_pos_bound (- v) r ltac:(lia)). nia. }
  split; [done |]. split; [done |].
  split; [replace (r - 1) with (Z.pred r) by lia; lia |].
  split; [done |]. split; [done |].
  split; [rewrite length_fmap, length_seq; lia |].
  intros i num Hi. rewrite list_lookup_fmap in Hi.
  destruct (seq 0 (Z.to_nat v) !! i) as [j |] eqn:Hj; [| discriminate].
  apply lookup_seq in Hj as [-> Hlt]. cbn in Hi. inversion Hi; subst. lia.
Qed.

Lemma vizuaanalyze_grid_witness :
  exists figures,
    vizuaanalyze 7 [4; 1; 7; 2; 3; 3; 9] 5 = inr figures
    /\ n_rows figures = 3 /\ n_cols figures = 2
    /\ n_viz figures <= n_rows figures * n_cols figures.
Proof.
  destruct (vizuaanalyze 7 [4; 1; 7; 2; 3; 3; 9] 5) as [e | figures] eqn:E.
  - exfalso. vm_compute in E. discriminate.
  - exists figures.
    pose proof (vizuaanalyze_grid 7 [4; 1; 7; 2; 3; 3; 9] 5 figures E)
      as (_ & _ & _ & _ & Hfit & _).
    split; [reflexivity |]. vm_compute in E. inversion E; subst.
    split; [reflexivity | split; [reflexivity | exact Hfit]].
Defined.
